(** * Chunk-storage inspection scripts: a shallow embedding

    The definitions below follow [compare_chunks.py] and [check_levels.py]
    line by line.  Python [bytes] are lists of [Byte.byte]; Python integers
    are [Z] (they never wrap); an exception is the [Raise] case of [result];
    a file object is its content plus a cursor; a result dictionary is a
    record whose absent keys are [None]. *)

From Stdlib Require Import ZArith List Lia Bool.
From Stdlib Require Import Strings.Byte.
From Stdlib Require Strings.String.
Import String.StringSyntax.
Delimit Scope string_scope with string.
Import ListNotations.
Open Scope Z_scope.

(** ** Exceptions and the error monad *)

Inductive exn : Type :=
| ValueError          (* raise ValueError(...); a seek outside 64 bits *)
| OSError             (* an offset the operating system refuses *)
| StructError         (* struct.error: buffer of the wrong size *)
| IndexError          (* bytes index out of range *)
| UnicodeDecodeError  (* bytes.decode("utf-8") on ill-formed input *)
| ZstdError.          (* raised by the external decompressor *)

Inductive result (A : Type) : Type :=
| Ok (a : A)
| Raise (e : exn).
Arguments Ok {A} a.
Arguments Raise {A} e.

Definition bind {A B} (m : result A) (k : A -> result B) : result B :=
  match m with
  | Ok a => k a
  | Raise e => Raise e
  end.

Declare Scope py_scope.
Delimit Scope py_scope with py.
Notation "x <- m ;; k" := (bind m (fun x => k))
  (at level 61, m at next level, right associativity) : py_scope.
Notation "' p <- m ;; k" := (bind m (fun p => k))
  (at level 61, p pattern, m at next level, right associativity) : py_scope.
Open Scope py_scope.

(** [for i in range(n)] with the running index kept in [Z]; the loop stops
    at the first exception. *)
Fixpoint for_range {St : Type} (n : nat) (i : Z)
    (body : Z -> St -> result St) (s : St) : result St :=
  match n with
  | O => Ok s
  | S n' => s' <- body i s ;; for_range n' (i + 1) body s'
  end.

Definition range_loop {St : Type} (n : Z) (body : Z -> St -> result St) (s : St)
  : result St :=
  for_range (Z.to_nat n) 0 body s.

(** ** Bytes *)

Definition bytes := list byte.

Definition byte_val (b : byte) : Z := Z.of_N (Byte.to_N b).

(** [B n] is the byte of value [n] (for writing test vectors). *)
Definition B (n : N) : byte :=
  match Byte.of_N n with
  | Some b => b
  | None => x00
  end.

Definition len {A} (l : list A) : Z := Z.of_nat (length l).

(** [l[i]] for a non-negative [i] (no cursor or index of the scripts is
    ever negative). *)
Definition item {A} (l : list A) (i : Z) : result A :=
  if i <? 0 then Raise IndexError
  else match nth_error l (Z.to_nat i) with
       | Some a => Ok a
       | None => Raise IndexError
       end.

(** Indexing [bytes] yields an integer in 0..255. *)
Definition index (data : bytes) (i : Z) : result Z :=
  b <- item data i ;; Ok (byte_val b).

(** [data[lo:hi]] for [0 <= lo]: a slice never raises, it is cut at the end
    of the buffer. *)
Definition slice (data : bytes) (lo hi : Z) : bytes :=
  firstn (Z.to_nat (hi - lo)) (skipn (Z.to_nat lo) data).

Fixpoint bytes_eqb (a b : bytes) : bool :=
  match a, b with
  | [], [] => true
  | x :: a', y :: b' => Byte.eqb x y && bytes_eqb a' b'
  | _, _ => false
  end.

(** *** struct.unpack *)

(** [struct.unpack(">H", b)[0]] *)
Definition unpack_BE_H (b : bytes) : result Z :=
  match b with
  | [b0; b1] => Ok (byte_val b0 * 256 + byte_val b1)
  | _ => Raise StructError
  end.

(** [struct.unpack(">I", b)[0]] *)
Definition unpack_BE_I (b : bytes) : result Z :=
  match b with
  | [b0; b1; b2; b3] =>
      Ok (byte_val b0 * 16777216 + byte_val b1 * 65536
          + byte_val b2 * 256 + byte_val b3)
  | _ => Raise StructError
  end.

(** [struct.unpack("<H", b)[0]] *)
Definition unpack_LE_H (b : bytes) : result Z :=
  match b with
  | [b0; b1] => Ok (byte_val b0 + byte_val b1 * 256)
  | _ => Raise StructError
  end.

(** [struct.unpack("<h", b)[0]]: two's complement on 16 bits. *)
Definition unpack_LE_h (b : bytes) : result Z :=
  match b with
  | [b0; b1] =>
      let u := byte_val b0 + byte_val b1 * 256 in
      Ok (if u <? 32768 then u else u - 65536)
  | _ => Raise StructError
  end.

(** [struct.unpack("<I", b)[0]] *)
Definition unpack_LE_I (b : bytes) : result Z :=
  match b with
  | [b0; b1; b2; b3] =>
      Ok (byte_val b0 + byte_val b1 * 256
          + byte_val b2 * 65536 + byte_val b3 * 16777216)
  | _ => Raise StructError
  end.

(** *** bytes.decode("utf-8")

    The strict decoder: the well-formed byte sequences of the Unicode
    standard (no overlong forms, no surrogates, nothing above U+10FFFF).
    A Python [str] is the list of its code points. *)

Definition str := list Z.

Definition is_cont (b : Z) : bool := (128 <=? b) && (b <=? 191).

Definition in_range (lo hi b : Z) : bool := (lo <=? b) && (b <=? hi).

Fixpoint utf8_decode_vals (bs : list Z) : result str :=
  match bs with
  | [] => Ok []
  | b0 :: r0 =>
      if b0 <=? 127 then
        s <- utf8_decode_vals r0 ;; Ok (b0 :: s)
      else if in_range 194 223 b0 then
        match r0 with
        | b1 :: r1 =>
            if is_cont b1 then
              s <- utf8_decode_vals r1 ;;
              Ok (((b0 - 192) * 64 + (b1 - 128)) :: s)
            else Raise UnicodeDecodeError
        | _ => Raise UnicodeDecodeError
        end
      else if in_range 224 239 b0 then
        match r0 with
        | b1 :: b2 :: r2 =>
            let lo := if b0 =? 224 then 160 else 128 in
            let hi := if b0 =? 237 then 159 else 191 in
            if in_range lo hi b1 && is_cont b2 then
              s <- utf8_decode_vals r2 ;;
              Ok (((b0 - 224) * 4096 + (b1 - 128) * 64 + (b2 - 128)) :: s)
            else Raise UnicodeDecodeError
        | _ => Raise UnicodeDecodeError
        end
      else if in_range 240 244 b0 then
        match r0 with
        | b1 :: b2 :: b3 :: r3 =>
            let lo := if b0 =? 240 then 144 else 128 in
            let hi := if b0 =? 244 then 143 else 191 in
            if in_range lo hi b1 && is_cont b2 && is_cont b3 then
              s <- utf8_decode_vals r3 ;;
              Ok (((b0 - 240) * 262144 + (b1 - 128) * 4096
                   + (b2 - 128) * 64 + (b3 - 128)) :: s)
            else Raise UnicodeDecodeError
        | _ => Raise UnicodeDecodeError
        end
      else Raise UnicodeDecodeError
  end.

Definition decode_utf8 (b : bytes) : result str :=
  utf8_decode_vals (map byte_val b).

(** ** Nibble-packed arrays

    The two inner loops of [analyze_fluid_section] read a 16384-byte array
    two voxels per byte, each with its own fixed convention. *)

(** Lines 105-109: the voxel (palette index) array of a HALF_BYTE section. *)
Definition fluid_nibble (block_data : bytes) (i : Z) : result Z :=
  let byte_idx := i / 2 in
  if i mod 2 =? 0 then
    b <- index block_data byte_idx ;; Ok (Z.land (Z.shiftr b 4) 15)
  else
    b <- index block_data byte_idx ;; Ok (Z.land b 15).

(** Lines 137-141: the level array. *)
Definition level_nibble (level_data : bytes) (i : Z) : result Z :=
  let byte_idx := i / 2 in
  if i mod 2 =? 0 then
    b <- index level_data byte_idx ;; Ok (Z.land b 15)
  else
    b <- index level_data byte_idx ;; Ok (Z.land (Z.shiftr b 4) 15).

(** [check_levels.py], lines 66-70: the same level array, written with
    shifts and masks. *)
Definition check_levels_nibble (ld : bytes) (i : Z) : result Z :=
  let bi2 := Z.shiftr i 1 in
  if Z.land i 1 =? 0 then
    b <- index ld bi2 ;; Ok (Z.land b 15)
  else
    b <- index ld bi2 ;; Ok (Z.land (Z.shiftr b 4) 15).

(** The source has no order parameter: each order names one of the two
    hard-wired loops, [EvenLow] the level loop and [EvenHigh] the voxel
    loop. *)
Inductive NibbleOrder : Type := EvenLow | EvenHigh.

Definition decode_nibble (order : NibbleOrder) (data : bytes) (i : Z)
  : result Z :=
  match order with
  | EvenLow => level_nibble data i
  | EvenHigh => fluid_nibble data i
  end.

Definition low_nibble (b : byte) : Z := byte_val b mod 16.
Definition high_nibble (b : byte) : Z := byte_val b / 16.

Definition MAGIC_STRING : bytes :=
  String.list_byte_of_string "HytaleIndexedStorage"%string.
Definition MAGIC_LENGTH : Z := 20.
Definition HEADER_LENGTH : Z := 32.

(** ** Files: the content and the cursor of an open binary file *)

Record file : Type := { content : bytes; cursor : Z }.

(** [f.read(n)], [0 <= n]: at most [n] bytes, fewer at the end of the file,
    never an exception. *)
Definition f_read (n : Z) (f : file) : bytes * file :=
  let d := slice (content f) (cursor f) (cursor f + n) in
  (d, {| content := content f; cursor := cursor f + len d |}).

(** [f.seek(p)] on a file opened with [open(path, "rb")]: an offset that
    does not fit a signed 64-bit integer is refused by Python
    ([ValueError]), a negative offset that fits by the operating system
    ([OSError]), and so is an offset above [seek_max], the largest offset
    the file system of the file accepts.  Seeking beyond the end of the
    file is allowed. *)
Definition f_seek (seek_max : Z) (p : Z) (f : file) : result file :=
  if p <? -9223372036854775808 then Raise ValueError
  else if p <? 0 then Raise OSError
  else if 9223372036854775808 <=? p then Raise ValueError
  else if seek_max <? p then Raise OSError
  else Ok {| content := content f; cursor := p |}.

(** ** Container reader ([compare_chunks.py]) *)

Definition read_region_header (f : file) : result (Z * Z * Z * file) :=
  let '(magic, f) := f_read MAGIC_LENGTH f in
  if negb (bytes_eqb magic MAGIC_STRING) then Raise ValueError
  else
    let '(b, f) := f_read 4 f in
    version <- unpack_BE_I b ;;
    let '(b, f) := f_read 4 f in
    blob_count <- unpack_BE_I b ;;
    let '(b, f) := f_read 4 f in
    segment_size <- unpack_BE_I b ;;
    Ok (version, blob_count, segment_size, f).

Definition read_blob_index (f : file) (blob_count : Z)
  : result (list Z * file) :=
  range_loop blob_count
    (fun _ '(indices, f) =>
       let '(b, f) := f_read 4 f in
       idx <- unpack_BE_I b ;;
       Ok (indices ++ [idx], f))
    ([], f).

(** Lines 44-48 of [read_chunk]: [None] for an absent slot, else the byte
    position of the segment. *)
Definition locate (blob_index_entry blob_count segment_size : Z) : option Z :=
  if blob_index_entry =? 0 then None
  else
    let segments_base := HEADER_LENGTH + blob_count * 4 in
    Some (segments_base + (blob_index_entry - 1) * segment_size).

(** Lines 50-53 of [read_chunk]: the two lengths and the compressed bytes. *)
Definition read_raw_blob (seek_max : Z) (f : file) (position : Z)
  : result (Z * Z * bytes * file) :=
  f <- f_seek seek_max position f ;;
  let '(b, f) := f_read 4 f in
  src_length <- unpack_BE_I b ;;
  let '(b, f) := f_read 4 f in
  compressed_length <- unpack_BE_I b ;;
  let '(compressed_data, f) := f_read compressed_length f in
  Ok (src_length, compressed_length, compressed_data, f).

Section Decompressor.

(** The largest offset the file system accepts (see [f_seek]). *)
Variable seek_max : Z.

(** [zstd.ZstdDecompressor().decompress(data, max_output_size=n)], an
    external library. *)
Variable decompress : bytes -> Z -> result bytes.

Definition read_chunk (f : file)
    (blob_index_entry blob_count segment_size : Z)
  : result (option bytes * file) :=
  match locate blob_index_entry blob_count segment_size with
  | None => Ok (None, f)
  | Some position =>
      '(src_length, compressed_length, compressed_data, f)
        <- read_raw_blob seek_max f position ;;
      decompressed <- decompress compressed_data src_length ;;
      Ok (Some decompressed, f)
  end.

End Decompressor.

(** The slot of the enumeration [for blob_idx, first_segment in
    enumerate(blob_indices)]. *)
Definition locate_slot (blob_indices : list Z) (slot : nat)
    (blob_count segment_size : Z) : option Z :=
  match nth_error blob_indices slot with
  | Some first_segment => locate first_segment blob_count segment_size
  | None => None
  end.

(** ** Container reader ([check_levels.py], lines 12-16 and 20-26) *)

Definition check_levels_header (f : file)
  : result (bytes * Z * Z * Z * list Z * file) :=
  let '(magic, f) := f_read 20 f in
  let '(b, f) := f_read 4 f in
  version <- unpack_BE_I b ;;
  let '(b, f) := f_read 4 f in
  blob_count <- unpack_BE_I b ;;
  let '(b, f) := f_read 4 f in
  segment_size <- unpack_BE_I b ;;
  '(indices, f) <- read_blob_index f blob_count ;;
  Ok (magic, version, blob_count, segment_size, indices, f).

Definition check_levels_position (fs blob_count segment_size : Z)
  : option Z :=
  if fs =? 0 then None
  else
    let segments_base := HEADER_LENGTH + blob_count * 4 in
    Some (segments_base + (fs - 1) * segment_size).


(** ** Documents

    A decoded sub-document, as far as the scripts look at it: the optional
    keys ["Data"] and ["Version"]. *)

Record doc : Type := { Data : option bytes; Version : option Z }.

(** ** Palette sections *)

Inductive palette_name : Type := EMPTY | HALF_BYTE | BYTE | SHORT | UNKNOWN.

(** [PALETTE_NAMES.get(palette_type, "UNKNOWN")] *)
Definition PALETTE_NAMES_get (palette_type : Z) : palette_name :=
  if palette_type =? 0 then EMPTY
  else if palette_type =? 1 then HALF_BYTE
  else if palette_type =? 2 then BYTE
  else if palette_type =? 3 then SHORT
  else UNKNOWN.

Record entry : Type := { id : Z; name : str; count : Z }.

(** The entry loop, lines 88-94 (and again 183-189): one iteration. *)
Definition read_entry (data : bytes) (st : list entry * Z)
  : result (list entry * Z) :=
  let '(entries, pos) := st in
  internal_id <- index data pos ;;
  let pos := pos + 1 in
  str_len <- unpack_BE_H (slice data pos (pos + 2)) ;;
  let pos := pos + 2 in
  name <- decode_utf8 (slice data pos (pos + str_len)) ;;
  let pos := pos + str_len in
  count <- unpack_BE_H (slice data pos (pos + 2)) ;;
  let pos := pos + 2 in
  Ok (entries ++ [{| id := internal_id; name := name; count := count |}], pos).

Definition read_entries (data : bytes) (entry_count pos : Z)
  : result (list entry * Z) :=
  range_loop entry_count (fun _ st => read_entry data st) ([], pos).

(** An element of ["sample_positions"] ([value] is its ["palette_idx"]) or
    of ["sample_levels"] ([value] is its ["level"]). *)
Record sample : Type := { s_index : Z; s_x : Z; s_y : Z; s_z : Z; value : Z }.

(** One pass of either voxel loop: [nibble_of] is the nibble expression of
    the loop, the state is the counter and the list of samples. *)
Definition voxel_body (nibble_of : Z -> result Z) (i : Z)
    (st : Z * list sample) : result (Z * list sample) :=
  let '(n, positions) := st in
  nibble <- nibble_of i ;;
  if negb (nibble =? 0) then
    let n := n + 1 in
    let x := Z.land i 31 in
    let z := Z.land (Z.shiftr i 5) 31 in
    let y := Z.land (Z.shiftr i 10) 31 in
    if len positions <? 20 then
      Ok (n, positions ++
             [{| s_index := i; s_x := x; s_y := y; s_z := z;
                 value := nibble |}])
    else Ok (n, positions)
  else Ok (n, positions).

Record fluid_result : Type := {
  status_no_data : bool;
  palette_type : option Z;
  palette_type_name : option palette_name;
  entry_count : option Z;
  entries : option (list entry);
  fluid_block_count : option Z;
  sample_positions : option (list sample);
  has_levels : option bool;
  non_zero_levels : option Z;
  sample_levels : option (list sample)
}.

(** [analyze_fluid_section]; the second component is the cursor [pos] when
    the function returns. *)
Definition analyze_fluid_section (fluid_doc : doc)
  : result (fluid_result * Z) :=
  match Data fluid_doc with
  | None =>
      Ok ({| status_no_data := true; palette_type := None;
             palette_type_name := None; entry_count := None;
             entries := None; fluid_block_count := None;
             sample_positions := None; has_levels := None;
             non_zero_levels := None; sample_levels := None |}, 0)
  | Some data =>
      let pos := 0 in
      palette_type <- index data pos ;;
      let pos := pos + 1 in
      if palette_type =? 0 then
        b <- index data pos ;;
        let has_levels := negb (b =? 0) in
        let pos := pos + 1 in
        Ok ({| status_no_data := false; palette_type := Some palette_type;
               palette_type_name := Some (PALETTE_NAMES_get palette_type);
               entry_count := None; entries := None;
               fluid_block_count := None; sample_positions := None;
               has_levels := Some has_levels;
               non_zero_levels := None; sample_levels := None |}, pos)
      else
        entry_count <- unpack_BE_H (slice data pos (pos + 2)) ;;
        let pos := pos + 2 in
        '(entries, pos) <- read_entries data entry_count pos ;;
        '(fluid_block_count, sample_positions, pos) <-
          (if palette_type =? 1 then
             let block_data := slice data pos (pos + 16384) in
             let pos := pos + 16384 in
             '(fluid_blocks, fluid_positions) <-
               range_loop 32768 (voxel_body (fluid_nibble block_data))
                 (0, []) ;;
             Ok (Some fluid_blocks, Some fluid_positions, pos)
           else if palette_type =? 2 then
             let block_data := slice data pos (pos + 32768) in
             let pos := pos + 32768 in
             let fluid_blocks :=
               len (filter (fun b => negb (byte_val b =? 0)) block_data) in
             Ok (Some fluid_blocks, None, pos)
           else Ok (None, None, pos)) ;;
        b <- index data pos ;;
        let has_levels := negb (b =? 0) in
        let pos := pos + 1 in
        '(non_zero_levels, sample_levels, pos) <-
          (if has_levels then
             let level_data := slice data pos (pos + 16384) in
             let pos := pos + 16384 in
             '(non_zero, level_positions) <-
               range_loop 32768 (voxel_body (level_nibble level_data))
                 (0, []) ;;
             Ok (Some non_zero, Some level_positions, pos)
           else Ok (None, None, pos)) ;;
        Ok ({| status_no_data := false; palette_type := Some palette_type;
               palette_type_name := Some (PALETTE_NAMES_get palette_type);
               entry_count := Some entry_count; entries := Some entries;
               fluid_block_count := fluid_block_count;
               sample_positions := sample_positions;
               has_levels := Some has_levels;
               non_zero_levels := non_zero_levels;
               sample_levels := sample_levels |}, pos)
  end.

Record block_result : Type := {
  b_version : option Z;
  b_migration_version : option Z;
  b_palette_type : option Z;
  b_palette_type_name : option palette_name;
  b_entry_count : option Z;
  b_entries : option (list entry)
}.

(** [block_doc.get("Version", 0)] *)
Definition Version_get (d : doc) : Z :=
  match Version d with
  | Some v => v
  | None => 0
  end.

(** [analyze_block_section]; the second component is the cursor [pos] when
    the function returns. *)
Definition analyze_block_section (block_doc : doc)
  : result (block_result * Z) :=
  match Data block_doc with
  | None =>
      Ok ({| b_version := Version block_doc; b_migration_version := None;
             b_palette_type := None; b_palette_type_name := None;
             b_entry_count := None; b_entries := None |}, 0)
  | Some data =>
      let pos := 0 in
      let version := Version_get block_doc in
      '(migration_version, pos) <-
        (if 6 <=? version then
           migration_ver <- unpack_BE_I (slice data pos (pos + 4)) ;;
           Ok (Some migration_ver, pos + 4)
         else Ok (None, pos)) ;;
      palette_type <- index data pos ;;
      let pos := pos + 1 in
      if palette_type =? 0 then
        Ok ({| b_version := Version block_doc;
               b_migration_version := migration_version;
               b_palette_type := Some palette_type;
               b_palette_type_name := Some (PALETTE_NAMES_get palette_type);
               b_entry_count := None; b_entries := None |}, pos)
      else
        entry_count <- unpack_BE_H (slice data pos (pos + 2)) ;;
        let pos := pos + 2 in
        '(entries, pos) <- read_entries data entry_count pos ;;
        Ok ({| b_version := Version block_doc;
               b_migration_version := migration_version;
               b_palette_type := Some palette_type;
               b_palette_type_name := Some (PALETTE_NAMES_get palette_type);
               b_entry_count := Some entry_count;
               b_entries := Some entries |}, pos)
  end.

(** ** Heightmap *)

(** An element of ["sample_heights"]. *)
Record height_sample : Type :=
  { x : Z; z : Z; palette_idx : Z; height : Z }.

(** Lines 233-237: one bit of a column's field; a byte beyond the end of
    the bitfield contributes nothing. *)
Definition column_bit (bitfield_data : bytes) (bit_index : Z) (bit : Z)
    (value : Z) : result Z :=
  let byte_idx := (bit_index + bit) / 8 in
  let bit_offset := (bit_index + bit) mod 8 in
  if byte_idx <? len bitfield_data then
    b <- index bitfield_data byte_idx ;;
    Ok (Z.lor value (Z.shiftl (Z.land (Z.shiftr b bit_offset) 1) bit))
  else Ok value.

(** Lines 231-241: one column. *)
Definition column_body (heights_palette : list Z) (bitfield_data : bytes)
    (col_idx : Z) (sample_heights : list height_sample)
  : result (list height_sample) :=
  let bit_index := col_idx * 10 in
  value <- range_loop 10 (column_bit bitfield_data bit_index) 0 ;;
  let x := Z.land col_idx 31 in
  let z := Z.shiftr col_idx 5 in
  actual_height <-
    (if value <? len heights_palette then item heights_palette value
     else Ok (-1)) ;;
  Ok (sample_heights ++
      [{| x := x; z := z; palette_idx := value; height := actual_height |}]).

(** The palette loop of [analyze_heightmap], lines 213-215. *)
Definition palette_body (data : bytes) (_ : Z) (st : list Z * Z)
  : result (list Z * Z) :=
  let '(heights_palette, pos) := st in
  h <- unpack_LE_h (slice data pos (pos + 2)) ;;
  let pos := pos + 2 in
  Ok (heights_palette ++ [h], pos).

(** [min(l) if l else None], [max(l) if l else None] *)
Definition min_or_None (l : list Z) : option Z :=
  match l with
  | [] => None
  | a :: l' => Some (fold_left Z.min l' a)
  end.

Definition max_or_None (l : list Z) : option Z :=
  match l with
  | [] => None
  | a :: l' => Some (fold_left Z.max l' a)
  end.

Record heightmap_result : Type := {
  h_status_no_data : bool;
  h_version : option Z;
  needs_physics : option bool;
  height_palette_count : option Z;
  height_palette_values : option (list Z);
  height_min : option Z;
  height_max : option Z;
  height_bitfield_length : option Z;
  sample_heights : option (list height_sample)
}.

(** The local variables of [analyze_heightmap] when it returns. *)
Record heightmap_locals : Type := {
  l_result : heightmap_result;
  l_pos : Z;
  l_palette_count : Z;
  l_heights_palette : list Z;
  l_bitfield_length : Z;
  l_bitfield_data : bytes;
  l_sample_heights : list height_sample
}.

Definition analyze_heightmap_locals (block_chunk_doc : doc)
  : result heightmap_locals :=
  match Data block_chunk_doc with
  | None =>
      Ok {| l_result :=
              {| h_status_no_data := true; h_version := None;
                 needs_physics := None; height_palette_count := None;
                 height_palette_values := None; height_min := None;
                 height_max := None; height_bitfield_length := None;
                 sample_heights := None |};
            l_pos := 0; l_palette_count := 0; l_heights_palette := [];
            l_bitfield_length := 0; l_bitfield_data := [];
            l_sample_heights := [] |}
  | Some data =>
      let pos := 0 in
      b <- index data pos ;;
      let needs_physics := negb (b =? 0) in
      let pos := pos + 1 in
      palette_count <- unpack_LE_H (slice data pos (pos + 2)) ;;
      let pos := pos + 2 in
      '(heights_palette, pos) <-
        range_loop palette_count (palette_body data) ([], pos) ;;
      bitfield_length <- unpack_LE_I (slice data pos (pos + 4)) ;;
      let pos := pos + 4 in
      let bitfield_data := slice data pos (pos + bitfield_length) in
      let pos := pos + bitfield_length in
      sample_heights <-
        range_loop (Z.min 64 1024)
          (column_body heights_palette bitfield_data) [] ;;
      Ok {| l_result :=
              {| h_status_no_data := false;
                 h_version := Version block_chunk_doc;
                 needs_physics := Some needs_physics;
                 height_palette_count := Some palette_count;
                 height_palette_values := Some (firstn 20 heights_palette);
                 height_min := min_or_None heights_palette;
                 height_max := max_or_None heights_palette;
                 height_bitfield_length := Some bitfield_length;
                 sample_heights := Some (firstn 20 sample_heights) |};
            l_pos := pos; l_palette_count := palette_count;
            l_heights_palette := heights_palette;
            l_bitfield_length := bitfield_length;
            l_bitfield_data := bitfield_data;
            l_sample_heights := sample_heights |}
  end.

Definition analyze_heightmap (block_chunk_doc : doc)
  : result heightmap_result :=
  l <- analyze_heightmap_locals block_chunk_doc ;; Ok (l_result l).

(** *** The bitfield as one little-endian bit string *)

Fixpoint bitstream (l : bytes) : Z :=
  match l with
  | [] => 0
  | b :: l' => byte_val b + 256 * bitstream l'
  end.

(** The 10-bit field that starts at bit [col_idx * 10]. *)
Definition field10 (l : bytes) (col_idx : Z) : Z :=
  Z.shiftr (bitstream l) (col_idx * 10) mod 1024.

(** The palette lookup, with the sentinel [-1] for an index that is not in
    the palette. *)
Definition palette_height (heights_palette : list Z) (value : Z) : Z :=
  nth (Z.to_nat value) heights_palette (-1).

(** A big-endian byte string as a number (Horner form). *)
Definition be_int (l : bytes) : Z :=
  fold_left (fun acc b => acc * 256 + byte_val b) l 0.

(** A little-endian byte string as a number. *)
Definition le_int (l : bytes) : Z := bitstream l.

(** Two's complement reading of a 16-bit pattern. *)
Definition signed16 (u : Z) : Z := if u <? 32768 then u else u - 65536.

(** A freshly opened file. *)
Definition open_file (buf : bytes) : file := {| content := buf; cursor := 0 |}.

(** A reported sample holds a non-zero 4-bit value. *)
Definition nibble_sample (s : sample) : Prop := 1 <= value s <= 15.

(** What the column loop is to append for column [col_idx]. *)
Definition column_sample (heights_palette : list Z) (bitfield_data : bytes)
    (col_idx : Z) : height_sample :=
  {| x := col_idx mod 32;
     z := col_idx / 32;
     palette_idx := field10 bitfield_data col_idx;
     height := palette_height heights_palette (field10 bitfield_data col_idx) |}.

(** The height stored at palette index [k]. *)
Definition stored_height (data : bytes) (k : Z) : Z :=
  signed16 (le_int (slice data (3 + 2 * k) (3 + 2 * k + 2))).

(** The state of the palette loop after [i] passes: [i] heights read from
    byte 3 on, two bytes each, all inside the buffer. *)
Definition palette_inv (data : bytes) (i : Z) (st : list Z * Z) : Prop :=
  0 <= i /\ len (fst st) = i /\ snd st = 3 + 2 * i /\
  (0 < i -> snd st <= len data) /\
  forall k, 0 <= k < i ->
    nth_error (fst st) (Z.to_nat k) = Some (stored_height data k).

(** The sample reported for voxel 0 when its value is [v]. *)
Definition first_sample (v : Z) : sample :=
  {| s_index := 0; s_x := 0; s_y := 0; s_z := 0; value := v |}.

(** A HALF_BYTE fluid section with the two entries "Empty" and "Water",
    a voxel array whose first byte is 0x50 and a level array whose first
    byte is 0x08. *)
Definition water_section : bytes :=
  [B 1; B 0; B 2;
   B 0; B 0; B 5; B 69; B 109; B 112; B 116; B 121; B 0; B 0;
   B 7; B 0; B 5; B 87; B 97; B 116; B 101; B 114; B 0; B 1]
  ++ B 0x50 :: repeat (B 0) (Z.to_nat 16383)
  ++ B 1 :: B 0x08 :: repeat (B 0) (Z.to_nat 16383).

(** ** Further vocabulary *)

(** The [n] big-endian 32-bit numbers stored from byte [q] on. *)
Fixpoint index_table (c : bytes) (q : Z) (n : nat) : list Z :=
  match n with
  | O => []
  | S n' => be_int (slice c q (q + 4)) :: index_table c (q + 4) n'
  end.


(** The integers [i], [i+1], ..., [i+n-1]. *)
Fixpoint zrange (i : Z) (n : nat) : list Z :=
  match n with
  | O => []
  | S n' => i :: zrange (i + 1) n'
  end.

(** The value a nibble expression yields at voxel [i] (0 where it raises). *)
Definition nibble_value (nibble_of : Z -> result Z) (i : Z) : Z :=
  match nibble_of i with
  | Ok v => v
  | Raise _ => 0
  end.

(** The voxels among the first [n] whose value is not zero, in order. *)
Definition nonzero_voxels (nibble_of : Z -> result Z) (n : nat) : list Z :=
  filter (fun i => negb (nibble_value nibble_of i =? 0)) (zrange 0 n).

(** The sample of voxel [i]: [index = y*1024 + z*32 + x]. *)
Definition voxel_sample (nibble_of : Z -> result Z) (i : Z) : sample :=
  {| s_index := i;
     s_x := i mod 32;
     s_y := (i / 1024) mod 32;
     s_z := (i / 32) mod 32;
     value := nibble_value nibble_of i |}.

(** What [analyze_fluid_section] does with the voxel array, by palette
    type: the cursor moves from [p] to [p1]. *)
Definition voxel_stage (data : bytes) (pt p : Z)
    (fbc : option Z) (sp : option (list sample)) (p1 : Z) : Prop :=
  (pt = 1 /\ p1 = p + 16384 /\
   exists c ps,
     range_loop 32768
       (voxel_body (fluid_nibble (slice data p (p + 16384)))) (0, [])
     = Ok (c, ps) /\
     fbc = Some c /\ sp = Some ps) \/
  (pt = 2 /\ p1 = p + 32768 /\
   fbc = Some (len (filter (fun b => negb (byte_val b =? 0))
                      (slice data p (p + 32768)))) /\
   sp = None) \/
  (pt <> 1 /\ pt <> 2 /\ p1 = p /\ fbc = None /\ sp = None).

(** What it does with the level array: the cursor moves from [p1], where
    the hasLevels byte [hb] is, to [pos]. *)
Definition level_stage (data : bytes) (hb p1 : Z)
    (nzl : option Z) (sl : option (list sample)) (pos : Z) : Prop :=
  (hb <> 0 /\ pos = p1 + 1 + 16384 /\
   exists c ps,
     range_loop 32768
       (voxel_body (level_nibble (slice data (p1 + 1) (p1 + 1 + 16384))))
       (0, [])
     = Ok (c, ps) /\
     nzl = Some c /\ sl = Some ps) \/
  (hb = 0 /\ pos = p1 + 1 /\ nzl = None /\ sl = None).

(** A sample names a voxel of the 32x32x32 section. *)
Definition sample_in_section (s : sample) : Prop :=
  0 <= s_index s < 32768 /\
  s_index s = s_y s * 1024 + s_z s * 32 + s_x s /\
  0 <= s_x s < 32 /\ 0 <= s_y s < 32 /\ 0 <= s_z s < 32.

(** ** The fluid sections of [check_levels.py], lines 43-76

    The script prints what it finds; the model returns it: the palette as
    tuples [(iid, nm, cnt)], the hasLevels flag, and [levels_found], whose
    strings ["(x,y,z)=levelN"] are kept as tuples [(x, y, z, lv)].  [None]
    stands for the [continue] of a section without data or with an EMPTY
    palette. *)

Definition check_levels_entry (fd : bytes) (st : list (Z * str * Z) * Z)
  : result (list (Z * str * Z) * Z) :=
  let '(entries, p) := st in
  iid <- index fd p ;;
  let p := p + 1 in
  sl <- unpack_BE_H (slice fd p (p + 2)) ;;
  let p := p + 2 in
  nm <- decode_utf8 (slice fd p (p + sl)) ;;
  let p := p + sl in
  cnt <- unpack_BE_H (slice fd p (p + 2)) ;;
  let p := p + 2 in
  Ok (entries ++ [(iid, nm, cnt)], p).

Definition check_levels_level (ld : bytes) (i : Z)
    (levels_found : list (Z * Z * Z * Z)) : result (list (Z * Z * Z * Z)) :=
  lv <- check_levels_nibble ld i ;;
  if negb (lv =? 0) && (len levels_found <? 20) then
    let x := Z.land i 31 in
    let z := Z.land (Z.shiftr i 5) 31 in
    let y := Z.land (Z.shiftr i 10) 31 in
    Ok (levels_found ++ [(x, y, z, lv)])
  else Ok levels_found.

Definition check_levels_section (fluid_doc : doc)
  : result (option (list (Z * str * Z) * bool
                    * option (list (Z * Z * Z * Z)))) :=
  let fd := match Data fluid_doc with Some d => d | None => [] end in
  match fd with
  | [] => Ok None
  | _ :: _ =>
      pt <- index fd 0 ;;
      if pt =? 0 then Ok None
      else
        let p := 1 in
        ec <- unpack_BE_H (slice fd p (p + 2)) ;;
        let p := p + 2 in
        '(entries, p) <-
          range_loop ec (fun _ st => check_levels_entry fd st) ([], p) ;;
        let p := p + 16384 in
        b <- index fd p ;;
        let has_levels := negb (b =? 0) in
        let p := p + 1 in
        if has_levels then
          let ld := slice fd p (p + 16384) in
          levels_found <- range_loop 32768 (check_levels_level ld) [] ;;
          Ok (Some (entries, has_levels, Some levels_found))
        else Ok (Some (entries, has_levels, None))
  end.

Definition entry_tuple (e : entry) : Z * str * Z := (id e, name e, count e).

Definition level_tuple (s : sample) : Z * Z * Z * Z :=
  (s_x s, s_y s, s_z s, value s).

(** Two runs that end alike: related results, or the same exception. *)
Definition alike {A B : Type} (R : A -> B -> Prop)
    (a : result A) (b : result B) : Prop :=
  match a, b with
  | Ok a', Ok b' => R a' b'
  | Raise e1, Raise e2 => e1 = e2
  | _, _ => False
  end.

(** ** The scan of [analyze_region], lines 263-360

    What the loop prints is left out; what it does is kept: which slots it
    reads, in which order, with which outcome.  One report is
    [(local_x, local_z, outcome of read_chunk)].  Everything after the read
    (decoding, printing) runs inside the same [try], so an exception there
    ends the pass the way a failed read does: it is printed, and
    [chunks_analyzed] is incremented.  After an exception the cursor of the
    handle is wherever the failed read left it; the scan goes on with the
    handle as it was, which changes nothing, since [read_chunk] seeks
    before it reads. *)

Section Region.

Variable seek_max : Z.

Variable decompress : bytes -> Z -> result bytes.


End Region.


(** The slots from [blob_idx] on whose index entry is not zero. *)
Fixpoint occupied_slots (blob_idx : Z) (blob_indices : list Z) : list Z :=
  match blob_indices with
  | [] => []
  | first_segment :: rest =>
      if first_segment =? 0 then occupied_slots (blob_idx + 1) rest
      else blob_idx :: occupied_slots (blob_idx + 1) rest
  end.

(** [analyze_block_section] behind the paletteType byte (lines 173-192):
    what it returns once the migration version [migration_version] and the
    paletteType byte [palette_type] have been read and the cursor stands at
    [pos], behind that byte. *)
Definition block_after (block_doc : doc) (data : bytes)
    (migration_version : option Z) (palette_type pos : Z)
  : result (block_result * Z) :=
  if palette_type =? 0 then
    Ok ({| b_version := Version block_doc;
           b_migration_version := migration_version;
           b_palette_type := Some palette_type;
           b_palette_type_name := Some (PALETTE_NAMES_get palette_type);
           b_entry_count := None; b_entries := None |}, pos)
  else
    entry_count <- unpack_BE_H (slice data pos (pos + 2)) ;;
    '(entries, p) <- read_entries data entry_count (pos + 2) ;;
    Ok ({| b_version := Version block_doc;
           b_migration_version := migration_version;
           b_palette_type := Some palette_type;
           b_palette_type_name := Some (PALETTE_NAMES_get palette_type);
           b_entry_count := Some entry_count;
           b_entries := Some entries |}, p).

(** The bytes of the voxel array [analyze_fluid_section] steps over for a
    palette type (lines 97-124): 16384 for HALF_BYTE, 32768 for BYTE, none
    for SHORT or a type it does not know. *)
Definition voxel_array_bytes (palette_type : Z) : Z :=
  if palette_type =? 1 then 16384
  else if palette_type =? 2 then 32768
  else 0.

(** * Properties *)

(** ** Bytes, slices and indexing *)

Lemma byte_val_range (b : byte) : 0 <= byte_val b < 256.
Proof.
  unfold byte_val. pose proof (Byte.to_N_bounded b) as H. lia.
Qed.

Lemma len_nonneg {A} (l : list A) : 0 <= len l.
Proof. unfold len. lia. Qed.

Lemma len_app {A} (l1 l2 : list A) : len (l1 ++ l2) = len l1 + len l2.
Proof. unfold len. rewrite length_app. lia. Qed.

Lemma item_Ok {A} (l : list A) (i : Z) (a : A) :
  item l i = Ok a <-> 0 <= i /\ nth_error l (Z.to_nat i) = Some a.
Proof.
  unfold item. destruct (Z.ltb_spec i 0) as [Hi | Hi].
  - split; [discriminate | lia].
  - destruct (nth_error l (Z.to_nat i)) as [a' |]; split.
    + intros [= ->]. auto.
    + intros [_ [= ->]]. reflexivity.
    + discriminate.
    + intros [_ H]. discriminate.
Qed.

Lemma item_in_range {A} (l : list A) (i : Z) (d : A) :
  0 <= i < len l -> item l i = Ok (nth (Z.to_nat i) l d).
Proof.
  intros Hi. apply item_Ok. split; [lia |].
  apply nth_error_nth'. unfold len in Hi. lia.
Qed.

Lemma index_nth_error (data : bytes) (i : Z) (b : byte) :
  0 <= i -> nth_error data (Z.to_nat i) = Some b ->
  index data i = Ok (byte_val b).
Proof.
  intros Hi Hn. unfold index.
  assert (item data i = Ok b) as -> by (apply item_Ok; auto).
  reflexivity.
Qed.

Lemma index_in_range (data : bytes) (i : Z) :
  0 <= i < len data -> index data i = Ok (byte_val (nth (Z.to_nat i) data x00)).
Proof.
  intros Hi. unfold index. rewrite (item_in_range data i x00 Hi). reflexivity.
Qed.

Lemma index_Ok_range (data : bytes) (i v : Z) :
  index data i = Ok v -> 0 <= i < len data /\ 0 <= v < 256.
Proof.
  unfold index. destruct (item data i) as [b | e] eqn:E; [| discriminate].
  intros [= <-]. apply item_Ok in E as [Hi Hn].
  split; [| apply byte_val_range].
  split; [assumption |].
  assert (nth_error data (Z.to_nat i) <> None) as Hlt by congruence.
  apply nth_error_Some in Hlt. unfold len. lia.
Qed.

Lemma len_slice (data : bytes) (lo hi : Z) :
  0 <= lo -> lo <= hi ->
  len (slice data lo hi) = Z.min (hi - lo) (Z.max 0 (len data - lo)).
Proof.
  intros Hlo Hhi. unfold slice, len.
  rewrite length_firstn, length_skipn. lia.
Qed.

Lemma bytes_eqb_eq (a b : bytes) : bytes_eqb a b = true <-> a = b.
Proof.
  revert b. induction a as [| x a IH]; intros [| y b]; simpl;
    try (split; [discriminate | discriminate]); [tauto |].
  rewrite andb_true_iff, IH. split.
  - intros [Hxy ->]. apply Byte.byte_dec_bl in Hxy. congruence.
  - intros [= -> ->]. split; [apply Byte.byte_dec_lb |]; reflexivity.
Qed.

(** ** Nibbles *)

Lemma land_15 (v : Z) : Z.land v 15 = v mod 16.
Proof. change 15 with (Z.ones 4). rewrite Z.land_ones by lia. reflexivity. Qed.

Lemma low_nibble_code (b : byte) : Z.land (byte_val b) 15 = low_nibble b.
Proof. apply land_15. Qed.

Lemma high_nibble_code (b : byte) :
  Z.land (Z.shiftr (byte_val b) 4) 15 = high_nibble b.
Proof.
  unfold high_nibble. rewrite land_15, Z.shiftr_div_pow2 by lia.
  change (2 ^ 4) with 16. pose proof (byte_val_range b).
  apply Z.mod_small. split.
  - apply Z.div_pos; lia.
  - apply Z.div_lt_upper_bound; lia.
Qed.

Lemma nibble_range (b : byte) :
  0 <= low_nibble b < 16 /\ 0 <= high_nibble b < 16.
Proof.
  unfold low_nibble, high_nibble. pose proof (byte_val_range b). split.
  - apply Z.mod_pos_bound. lia.
  - split; [apply Z.div_pos; lia | apply Z.div_lt_upper_bound; lia].
Qed.

Lemma fluid_nibble_even (data : bytes) (i : Z) (b : byte) :
  0 <= i -> i mod 2 = 0 -> nth_error data (Z.to_nat (i / 2)) = Some b ->
  fluid_nibble data i = Ok (high_nibble b).
Proof.
  intros Hi Hp Hn. unfold fluid_nibble. rewrite Hp. simpl.
  rewrite (index_nth_error data (i / 2) b) by (auto; apply Z.div_pos; lia).
  simpl. now rewrite high_nibble_code.
Qed.

Lemma fluid_nibble_odd (data : bytes) (i : Z) (b : byte) :
  0 <= i -> i mod 2 = 1 -> nth_error data (Z.to_nat (i / 2)) = Some b ->
  fluid_nibble data i = Ok (low_nibble b).
Proof.
  intros Hi Hp Hn. unfold fluid_nibble. rewrite Hp. simpl.
  rewrite (index_nth_error data (i / 2) b) by (auto; apply Z.div_pos; lia).
  simpl. now rewrite low_nibble_code.
Qed.

Lemma level_nibble_even (data : bytes) (i : Z) (b : byte) :
  0 <= i -> i mod 2 = 0 -> nth_error data (Z.to_nat (i / 2)) = Some b ->
  level_nibble data i = Ok (low_nibble b).
Proof.
  intros Hi Hp Hn. unfold level_nibble. rewrite Hp. simpl.
  rewrite (index_nth_error data (i / 2) b) by (auto; apply Z.div_pos; lia).
  simpl. now rewrite low_nibble_code.
Qed.

Lemma level_nibble_odd (data : bytes) (i : Z) (b : byte) :
  0 <= i -> i mod 2 = 1 -> nth_error data (Z.to_nat (i / 2)) = Some b ->
  level_nibble data i = Ok (high_nibble b).
Proof.
  intros Hi Hp Hn. unfold level_nibble. rewrite Hp. simpl.
  rewrite (index_nth_error data (i / 2) b) by (auto; apply Z.div_pos; lia).
  simpl. now rewrite high_nibble_code.
Qed.

(** The level loop of [check_levels.py] computes what the level loop of
    [compare_chunks.py] computes. *)
Lemma check_levels_nibble_eq (ld : bytes) (i : Z) :
  check_levels_nibble ld i = level_nibble ld i.
Proof.
  unfold check_levels_nibble, level_nibble.
  rewrite Z.shiftr_div_pow2 by lia. change (2 ^ 1) with 2.
  change 1 with (Z.ones 1) at 1. rewrite Z.land_ones by lia.
  reflexivity.
Qed.

Lemma voxel_byte (k : nat) :
  (2 * Z.of_nat k) / 2 = Z.of_nat k /\ (2 * Z.of_nat k) mod 2 = 0 /\
  (2 * Z.of_nat k + 1) / 2 = Z.of_nat k /\ (2 * Z.of_nat k + 1) mod 2 = 1.
Proof.
  repeat split.
  - rewrite Z.mul_comm. apply Z.div_mul. lia.
  - rewrite Z.mul_comm. apply Z.mod_mul. lia.
  - symmetry. apply (Z.div_unique _ 2 _ 1); lia.
  - symmetry. apply (Z.mod_unique _ 2 (Z.of_nat k) 1); lia.
Qed.

(** C1: in a nibble-packed array, order EvenLow gives the even voxel the
    low nibble of its byte and the odd voxel the high nibble, order EvenHigh
    the opposite; the byte 0xA5 decodes to 5, 10 under EvenLow and to 10, 5
    under EvenHigh. *)
Theorem nibble_order_decode :
  (forall (data : bytes) (k : nat) (b : byte),
      nth_error data k = Some b ->
      decode_nibble EvenLow data (2 * Z.of_nat k) = Ok (low_nibble b) /\
      decode_nibble EvenLow data (2 * Z.of_nat k + 1) = Ok (high_nibble b) /\
      decode_nibble EvenHigh data (2 * Z.of_nat k) = Ok (high_nibble b) /\
      decode_nibble EvenHigh data (2 * Z.of_nat k + 1) = Ok (low_nibble b)) /\
  decode_nibble EvenLow [B 0xA5] 0 = Ok 5 /\
  decode_nibble EvenLow [B 0xA5] 1 = Ok 10 /\
  decode_nibble EvenHigh [B 0xA5] 0 = Ok 10 /\
  decode_nibble EvenHigh [B 0xA5] 1 = Ok 5.
Proof.
  split; [| repeat split; reflexivity].
  intros data k b Hn. destruct (voxel_byte k) as (D0 & M0 & D1 & M1).
  unfold decode_nibble. repeat split.
  - apply level_nibble_even; [lia | exact M0 | now rewrite D0, Nat2Z.id].
  - apply level_nibble_odd; [lia | exact M1 | now rewrite D1, Nat2Z.id].
  - apply fluid_nibble_even; [lia | exact M0 | now rewrite D0, Nat2Z.id].
  - apply fluid_nibble_odd; [lia | exact M1 | now rewrite D1, Nat2Z.id].
Qed.

Lemma nibble_order_decode_witness :
  decode_nibble EvenLow [B 0x3C; B 0xA5] 2 = Ok (low_nibble (B 0xA5)) /\
  decode_nibble EvenLow [B 0x3C; B 0xA5] 3 = Ok (high_nibble (B 0xA5)) /\
  decode_nibble EvenHigh [B 0x3C; B 0xA5] 2 = Ok (high_nibble (B 0xA5)) /\
  decode_nibble EvenHigh [B 0x3C; B 0xA5] 3 = Ok (low_nibble (B 0xA5)).
Proof.
  exact (proj1 nibble_order_decode [B 0x3C; B 0xA5] 1%nat (B 0xA5) eq_refl).
Defined.

(** C10: the voxel-index loop of a HALF_BYTE fluid section takes the even
    voxel from the high nibble and the odd voxel from the low nibble; the
    level loop (in both scripts) takes the even voxel from the low nibble
    and the odd voxel from the high nibble.  Neither takes an order
    argument. *)
Theorem fixed_nibble_orders (data : bytes) (i : Z) (b : byte) :
  0 <= i -> nth_error data (Z.to_nat (i / 2)) = Some b ->
  (i mod 2 = 0 ->
     fluid_nibble data i = Ok (high_nibble b) /\
     level_nibble data i = Ok (low_nibble b) /\
     check_levels_nibble data i = Ok (low_nibble b)) /\
  (i mod 2 <> 0 ->
     fluid_nibble data i = Ok (low_nibble b) /\
     level_nibble data i = Ok (high_nibble b) /\
     check_levels_nibble data i = Ok (high_nibble b)).
Proof.
  intros Hi Hn. split; intros Hp.
  - rewrite check_levels_nibble_eq.
    rewrite (fluid_nibble_even data i b), (level_nibble_even data i b); auto.
  - assert (i mod 2 = 1) as Hp' by (pose proof (Z.mod_pos_bound i 2); lia).
    rewrite check_levels_nibble_eq.
    rewrite (fluid_nibble_odd data i b), (level_nibble_odd data i b); auto.
Qed.

Lemma fixed_nibble_orders_witness :
  fluid_nibble [B 0x3C; B 0xA5] 3 = Ok 5 /\
  level_nibble [B 0x3C; B 0xA5] 3 = Ok 10 /\
  check_levels_nibble [B 0x3C; B 0xA5] 3 = Ok 10.
Proof.
  refine (proj2 (fixed_nibble_orders [B 0x3C; B 0xA5] 3 (B 0xA5) _ _) _).
  - lia.
  - reflexivity.
  - discriminate.
Defined.

(** ** Container reader *)

Lemma unpack_BE_I_Ok (b : bytes) (v : Z) :
  unpack_BE_I b = Ok v -> len b = 4 /\ v = be_int b.
Proof.
  destruct b as [| b0 [| b1 [| b2 [| b3 [| b4 b]]]]]; try discriminate.
  intros [= <-]. split; [reflexivity |]. unfold be_int. simpl. lia.
Qed.

Lemma unpack_BE_I_len (b : bytes) :
  len b = 4 -> unpack_BE_I b = Ok (be_int b).
Proof.
  unfold len.
  destruct b as [| b0 [| b1 [| b2 [| b3 [| b4 b]]]]]; simpl length; try lia.
  intros _. unfold be_int. simpl. f_equal. lia.
Qed.

Lemma unpack_BE_I_short (b : bytes) :
  len b <> 4 -> unpack_BE_I b = Raise StructError.
Proof.
  unfold len.
  destruct b as [| b0 [| b1 [| b2 [| b3 [| b4 b]]]]]; simpl length;
    try reflexivity.
  lia.
Qed.



(** One [struct.unpack(">I", f.read(4))[0]], as the scripts write it. *)
Lemma read_BE_I (c : bytes) (p : Z) (A : Type)
    (k : Z -> file -> result A) :
  0 <= p ->
  (let '(b, f) := f_read 4 {| content := c; cursor := p |} in
   v <- unpack_BE_I b ;; k v f)
  = if p + 4 <=? len c
    then k (be_int (slice c p (p + 4))) {| content := c; cursor := p + 4 |}
    else Raise StructError.
Proof.
  intros Hp. unfold f_read. cbn [content cursor].
  pose proof (len_slice c p (p + 4) Hp ltac:(lia)) as Hl.
  destruct (Z.leb_spec (p + 4) (len c)) as [H | H].
  - rewrite unpack_BE_I_len by lia. cbn [bind].
    replace (len (slice c p (p + 4))) with 4 by lia. reflexivity.
  - rewrite unpack_BE_I_short by lia. reflexivity.
Qed.

Lemma slice_from_0 (buf : bytes) (n : Z) :
  slice buf 0 (0 + n) = firstn (Z.to_nat n) buf.
Proof. unfold slice. rewrite Z.add_0_l, Z.sub_0_r. reflexivity. Qed.

Lemma read_region_header_eq (buf : bytes) :
  read_region_header (open_file buf) =
  if negb (bytes_eqb (firstn 20 buf) MAGIC_STRING) then Raise ValueError
  else if 32 <=? len buf then
    Ok (be_int (slice buf 20 24), be_int (slice buf 24 28),
        be_int (slice buf 28 32), {| content := buf; cursor := 32 |})
  else Raise StructError.
Proof.
  unfold read_region_header, open_file.
  change (f_read MAGIC_LENGTH {| content := buf; cursor := 0 |})
    with (slice buf 0 (0 + 20),
          {| content := buf; cursor := 0 + len (slice buf 0 (0 + 20)) |}).
  cbv beta iota. rewrite slice_from_0.
  change (Z.to_nat 20) with 20%nat.
  destruct (bytes_eqb (firstn 20 buf) MAGIC_STRING) eqn:E; cbn [negb];
    [| reflexivity].
  apply bytes_eqb_eq in E.
  assert (len (firstn 20 buf) = 20) as -> by (rewrite E; reflexivity).
  assert (20 <= len buf) as Hlen.
  { assert (length (firstn 20 buf) = 20%nat) as H by (rewrite E; reflexivity).
    rewrite length_firstn in H. unfold len. lia. }
  change (0 + 20) with 20.
  rewrite read_BE_I by lia.
  destruct (Z.leb_spec (20 + 4) (len buf)) as [H1 | H1];
    [| destruct (Z.leb_spec 32 (len buf)); [lia | reflexivity]].
  rewrite read_BE_I by lia.
  destruct (Z.leb_spec (20 + 4 + 4) (len buf)) as [H2 | H2];
    [| destruct (Z.leb_spec 32 (len buf)); [lia | reflexivity]].
  rewrite read_BE_I by lia.
  change (20 + 4 + 4 + 4) with 32. change (20 + 4 + 4) with 28.
  change (20 + 4) with 24.
  destruct (Z.leb_spec 32 (len buf)); reflexivity.
Qed.

(** [read_region_header] of [compare_chunks.py]: on a buffer that does not
    begin with the 20-byte magic token it raises the format error
    ([ValueError]) whatever follows; when it succeeds the magic matched and
    version, blobCount and segmentSize are the big-endian 32-bit numbers at
    bytes 20, 24 and 28; it does succeed on every buffer of at least 32
    bytes that begins with the token. *)
Theorem region_header_magic (buf : bytes) :
  (firstn 20 buf <> MAGIC_STRING ->
     read_region_header (open_file buf) = Raise ValueError) /\
  (forall version blob_count segment_size f',
     read_region_header (open_file buf)
       = Ok (version, blob_count, segment_size, f') ->
     firstn 20 buf = MAGIC_STRING /\
     version = be_int (slice buf 20 24) /\
     blob_count = be_int (slice buf 24 28) /\
     segment_size = be_int (slice buf 28 32) /\
     cursor f' = 32) /\
  (firstn 20 buf = MAGIC_STRING -> 32 <= len buf ->
     read_region_header (open_file buf)
       = Ok (be_int (slice buf 20 24), be_int (slice buf 24 28),
             be_int (slice buf 28 32), {| content := buf; cursor := 32 |})).
Proof.
  rewrite read_region_header_eq.
  destruct (bytes_eqb (firstn 20 buf) MAGIC_STRING) eqn:E; cbn [negb].
  - apply bytes_eqb_eq in E. split; [tauto |]. split.
    + intros version blob_count segment_size f'.
      destruct (32 <=? len buf); [| discriminate]. intros [= <- <- <- <-].
      repeat split; assumption.
    + intros _ H. apply Z.leb_le in H. rewrite H. reflexivity.
  - assert (firstn 20 buf <> MAGIC_STRING) as Hne.
    { intros H. apply bytes_eqb_eq in H. congruence. }
    split; [reflexivity |]. split; [discriminate | tauto].
Qed.

Lemma region_header_magic_witness :
  read_region_header
    (open_file (MAGIC_STRING ++
                [B 0; B 0; B 0; B 1; B 0; B 0; B 4; B 0; B 0; B 0; B 16; B 0]))
  = Ok (1, 1024, 4096,
        {| content := MAGIC_STRING ++
             [B 0; B 0; B 0; B 1; B 0; B 0; B 4; B 0; B 0; B 0; B 16; B 0];
           cursor := 32 |}) /\
  read_region_header
    (open_file (B 0x68 :: tl MAGIC_STRING ++
                [B 0; B 0; B 0; B 1; B 0; B 0; B 4; B 0; B 0; B 0; B 16; B 0]))
  = Raise ValueError.
Proof.
  split.
  - refine (proj2 (proj2 (region_header_magic _)) _ _).
    + reflexivity.
    + vm_compute. discriminate.
  - refine (proj1 (region_header_magic _) _).
    vm_compute. discriminate.
Defined.

(** The header read of [check_levels.py] compares nothing: on the buffer of
    the witness above with a wrong first byte it goes on to the numbers. *)
Example check_levels_header_unchecked :
  check_levels_header
    (open_file (B 0x68 :: tl MAGIC_STRING ++
                [B 0; B 0; B 0; B 1; B 0; B 0; B 0; B 0; B 0; B 0; B 16; B 0]))
  = Ok (B 0x68 :: tl MAGIC_STRING, 1, 0, 4096, [],
        {| content := B 0x68 :: tl MAGIC_STRING ++
             [B 0; B 0; B 0; B 1; B 0; B 0; B 0; B 0; B 0; B 0; B 16; B 0];
           cursor := 32 |}).
Proof. reflexivity. Qed.

(** When it succeeds it has read the same three big-endian numbers. *)
Lemma check_levels_header_numbers (buf magic : bytes)
    (version blob_count segment_size : Z) (indices : list Z) (f' : file) :
  check_levels_header (open_file buf)
    = Ok (magic, version, blob_count, segment_size, indices, f') ->
  magic = firstn 20 buf /\
  version = be_int (slice buf 20 24) /\
  blob_count = be_int (slice buf 24 28) /\
  segment_size = be_int (slice buf 28 32).
Proof.
  unfold check_levels_header, open_file.
  change (f_read 20 {| content := buf; cursor := 0 |})
    with (slice buf 0 (0 + 20),
          {| content := buf; cursor := 0 + len (slice buf 0 (0 + 20)) |}).
  cbv beta iota. rewrite slice_from_0. change (Z.to_nat 20) with 20%nat.
  rewrite Z.add_0_l.
  assert (len (firstn 20 buf) = Z.min 20 (len buf)) as Hc
    by (unfold len; rewrite length_firstn; lia).
  pose proof (len_nonneg buf) as Hnn.
  set (c := len (firstn 20 buf)) in *.
  rewrite read_BE_I by lia.
  destruct (Z.leb_spec (c + 4) (len buf)); [| discriminate].
  rewrite read_BE_I by lia.
  destruct (Z.leb_spec (c + 4 + 4) (len buf)); [| discriminate].
  rewrite read_BE_I by lia.
  destruct (Z.leb_spec (c + 4 + 4 + 4) (len buf)); [| discriminate].
  destruct (read_blob_index _ _) as [[idx f0] | e]; cbn [bind];
    [| discriminate].
  assert (c = 20) as -> by lia.
  intros [= <- <- <- <- _ _]. repeat split.
Qed.

Lemma locate_None (e blob_count segment_size : Z) :
  locate e blob_count segment_size = None <-> e = 0.
Proof.
  unfold locate. destruct (Z.eqb_spec e 0); split; congruence.
Qed.

(** C4: for a valid slot, locating the chunk gives [None] exactly when the
    slot's index entry is 0, and otherwise the offset
    [32 + blobCount*4 + (entry-1)*segmentSize]; [read_chunk] returns [None]
    in the first case only, and [check_levels.py] computes the same
    position. *)
Theorem locate_slot_offset (seek_max : Z)
    (decompress : bytes -> Z -> result bytes) (f : file)
    (blob_indices : list Z) (slot : nat) (e blob_count segment_size : Z) :
  nth_error blob_indices slot = Some e ->
  (locate_slot blob_indices slot blob_count segment_size = None <-> e = 0) /\
  (e <> 0 ->
     locate_slot blob_indices slot blob_count segment_size
       = Some (32 + blob_count * 4 + (e - 1) * segment_size)) /\
  ((exists f', read_chunk seek_max decompress f e blob_count segment_size
               = Ok (None, f')) <-> e = 0) /\
  check_levels_position e blob_count segment_size
    = locate_slot blob_indices slot blob_count segment_size.
Proof.
  intros Hs. unfold locate_slot. rewrite Hs. repeat split.
  - apply locate_None.
  - apply locate_None.
  - intros He. unfold locate. destruct (Z.eqb_spec e 0); [contradiction |].
    reflexivity.
  - intros [f' H]. unfold read_chunk in H.
    destruct (locate e blob_count segment_size) as [position |] eqn:L;
      [| now apply locate_None in L].
    destruct (read_raw_blob seek_max f position) as [[[[s c] d] f0] | ];
      [| discriminate].
    cbn in H. destruct (decompress d s); discriminate.
  - intros ->. exists f. reflexivity.
Qed.

Lemma locate_slot_offset_witness :
  locate_slot [0; 3; 1] 1 3 4096 = Some (32 + 3 * 4 + (3 - 1) * 4096).
Proof.
  refine (proj1 (proj2 (locate_slot_offset 17592186040320 (fun d _ => Ok d)
                          (open_file []) [0; 3; 1] 1 3 3 4096 eq_refl)) _).
  discriminate.
Defined.





(** ** Palette sections *)

Lemma index_Ok_nth (data : bytes) (i v : Z) :
  index data i = Ok v ->
  0 <= i < len data /\ v = byte_val (nth (Z.to_nat i) data x00).
Proof.
  intros H. pose proof (index_Ok_range data i v H) as [Hi _].
  split; [assumption |]. rewrite index_in_range in H by assumption.
  congruence.
Qed.

Lemma index_out_of_range (data : bytes) (i : Z) :
  len data <= i -> index data i = Raise IndexError.
Proof.
  intros H. unfold index, item.
  destruct (Z.ltb_spec i 0); [reflexivity |].
  destruct (nth_error data (Z.to_nat i)) eqn:N; [| reflexivity].
  assert (nth_error data (Z.to_nat i) <> None) as Hn by congruence.
  apply nth_error_Some in Hn. unfold len in H. lia.
Qed.

Lemma for_range_inv {St : Type} (P : St -> Prop)
    (body : Z -> St -> result St) :
  (forall i s s', P s -> body i s = Ok s' -> P s') ->
  forall n i s s', P s -> for_range n i body s = Ok s' -> P s'.
Proof.
  intros Hbody. induction n as [| n IH]; intros i s s' Hs; simpl.
  - intros [= <-]. exact Hs.
  - destruct (body i s) as [s1 | e] eqn:E; cbn [bind]; [| discriminate].
    apply IH. eapply Hbody; eauto.
Qed.

Lemma unpack_BE_H_Ok (b : bytes) (v : Z) :
  unpack_BE_H b = Ok v -> len b = 2 /\ 0 <= v < 65536.
Proof.
  destruct b as [| b0 [| b1 [| b2 b]]]; try discriminate.
  intros [= <-]. split; [reflexivity |].
  pose proof (byte_val_range b0). pose proof (byte_val_range b1). lia.
Qed.

Lemma read_entry_pos (data : bytes) (es es' : list entry) (pos pos' : Z) :
  read_entry data (es, pos) = Ok (es', pos') -> pos + 5 <= pos'.
Proof.
  unfold read_entry.
  destruct (index data pos) as [iid | e]; cbn [bind]; [| discriminate].
  destruct (unpack_BE_H _) as [sl | e] eqn:SL; cbn [bind]; [| discriminate].
  destruct (decode_utf8 _) as [nm | e]; cbn [bind]; [| discriminate].
  destruct (unpack_BE_H (slice data (pos + 1 + 2 + sl) _)) as [cnt | e];
    cbn [bind]; [| discriminate].
  intros [= _ <-]. apply unpack_BE_H_Ok in SL. lia.
Qed.

Lemma read_entries_pos (data : bytes) (entry_count pos : Z)
    (es : list entry) (pos' : Z) :
  read_entries data entry_count pos = Ok (es, pos') -> pos <= pos'.
Proof.
  unfold read_entries, range_loop. intros H.
  apply (for_range_inv (fun st : list entry * Z => pos <= snd st)) in H;
    [exact H | | simpl; lia].
  intros _ [es0 p0] [es1 p1] Hp E. apply read_entry_pos in E. simpl in *. lia.
Qed.

(** C9: with a Version of at least 6 the block-section decoder first
    reads a 4-byte big-endian migration version ([struct.error] when fewer
    than 4 bytes are there) and then the paletteType byte at offset 4
    ([IndexError] when there is none), and goes on behind it, at offset 5;
    with a Version below 6, or none (taken as 0), it reads no migration
    version, takes paletteType from the first byte of Data ([IndexError] on
    an empty buffer) and goes on at offset 1. *)
Theorem block_migration_prefix (block_doc : doc) (data : bytes) :
  Data block_doc = Some data ->
  (6 <= Version_get block_doc ->
     (len data < 4 -> analyze_block_section block_doc = Raise StructError) /\
     (len data = 4 -> analyze_block_section block_doc = Raise IndexError) /\
     (5 <= len data ->
        analyze_block_section block_doc
        = block_after block_doc data (Some (be_int (firstn 4 data)))
            (byte_val (nth 4 data x00)) 5) /\
     (forall r pos,
        analyze_block_section block_doc = Ok (r, pos) ->
        b_migration_version r = Some (be_int (firstn 4 data)) /\
        b_palette_type r = Some (byte_val (nth 4 data x00)) /\
        5 <= pos)) /\
  (Version_get block_doc < 6 ->
     (data = [] -> analyze_block_section block_doc = Raise IndexError) /\
     (1 <= len data ->
        analyze_block_section block_doc
        = block_after block_doc data None (byte_val (nth 0 data x00)) 1) /\
     (forall r pos,
        analyze_block_section block_doc = Ok (r, pos) ->
        b_migration_version r = None /\
        b_palette_type r = Some (byte_val (nth 0 data x00)) /\
        1 <= pos)) /\
  (Version block_doc = None -> Version_get block_doc = 0).
Proof.
  intros HD. unfold analyze_block_section. rewrite HD.
  split; [| split].
  - intros Hv. apply Z.leb_le in Hv. rewrite Hv.
    rewrite slice_from_0. change (Z.to_nat 4) with 4%nat.
    assert (len (firstn 4 data) = Z.min 4 (len data)) as Hl
      by (unfold len; rewrite length_firstn; lia).
    split; [| split; [| split]].
    + intros Hs. rewrite unpack_BE_I_short by lia. reflexivity.
    + intros Hs. rewrite unpack_BE_I_len by lia. cbn [bind].
      rewrite index_out_of_range by lia. reflexivity.
    + intros Hs.
      destruct (unpack_BE_I (firstn 4 data)) as [m | e] eqn:M.
      2:{ rewrite unpack_BE_I_len in M by lia. discriminate. }
      apply unpack_BE_I_Ok in M as [_ ->]. cbn [bind].
      rewrite (index_in_range data (0 + 4)) by lia. cbn [bind].
      change (Z.to_nat (0 + 4)) with 4%nat. change (0 + 4 + 1) with 5.
      reflexivity.
    + intros r pos.
      destruct (unpack_BE_I (firstn 4 data)) as [m | e] eqn:M; cbn [bind];
        [| discriminate].
      apply unpack_BE_I_Ok in M as [_ ->].
      destruct (index data (0 + 4)) as [pt | e] eqn:I; cbn [bind];
        [| discriminate].
      apply index_Ok_nth in I as [_ ->]. change (Z.to_nat (0 + 4)) with 4%nat.
      destruct (_ =? 0).
      * intros [= <- <-]. cbn. repeat split. lia.
      * destruct (unpack_BE_H _) as [ec | e]; cbn [bind]; [| discriminate].
        destruct (read_entries data ec _) as [[es p] | e] eqn:RE; cbn [bind];
          [| discriminate].
        intros [= <- <-]. cbn. repeat split.
        apply read_entries_pos in RE. lia.
  - intros Hv. apply Z.leb_gt in Hv. rewrite Hv. cbn [bind].
    split; [| split].
    + intros ->. reflexivity.
    + intros Hs. rewrite (index_in_range data 0) by lia. cbn [bind].
      change (Z.to_nat 0) with 0%nat. change (0 + 1) with 1. reflexivity.
    + intros r pos.
      destruct (index data 0) as [pt | e] eqn:I; cbn [bind]; [| discriminate].
      apply index_Ok_nth in I as [_ ->]. change (Z.to_nat 0) with 0%nat.
      destruct (_ =? 0).
      * intros [= <- <-]. cbn. repeat split. lia.
      * destruct (unpack_BE_H _) as [ec | e]; cbn [bind]; [| discriminate].
        destruct (read_entries data ec _) as [[es p] | e] eqn:RE; cbn [bind];
          [| discriminate].
        intros [= <- <-]. cbn. repeat split.
        apply read_entries_pos in RE. lia.
  - unfold Version_get. intros ->. reflexivity.
Qed.

Lemma block_migration_prefix_witness :
  analyze_block_section
    {| Data := Some [B 0; B 0; B 0; B 9; B 1; B 0; B 1;
                     B 0; B 0; B 1; B 65; B 0; B 3];
       Version := Some 7 |}
  = block_after
      {| Data := Some [B 0; B 0; B 0; B 9; B 1; B 0; B 1;
                       B 0; B 0; B 1; B 65; B 0; B 3];
         Version := Some 7 |}
      [B 0; B 0; B 0; B 9; B 1; B 0; B 1; B 0; B 0; B 1; B 65; B 0; B 3]
      (Some 9) 1 5.
Proof.
  refine (proj1 (proj2 (proj2 (proj1
            (block_migration_prefix
               {| Data := Some [B 0; B 0; B 0; B 9; B 1; B 0; B 1;
                                B 0; B 0; B 1; B 65; B 0; B 3];
                  Version := Some 7 |} _ eq_refl) _))) _).
  - vm_compute. discriminate.
  - vm_compute. discriminate.
Defined.

(** The two results of an EMPTY section. *)
Lemma fluid_empty_run (ver : option Z) (hl : byte) (rest : bytes) :
  analyze_fluid_section {| Data := Some (x00 :: hl :: rest); Version := ver |}
  = Ok ({| status_no_data := false; palette_type := Some 0;
           palette_type_name := Some EMPTY;
           entry_count := None; entries := None;
           fluid_block_count := None; sample_positions := None;
           has_levels := Some (negb (byte_val hl =? 0));
           non_zero_levels := None; sample_levels := None |}, 2).
Proof. reflexivity. Qed.

Lemma block_empty_run (ver : option Z) (rest : bytes) :
  Version_get {| Data := Some (x00 :: rest); Version := ver |} < 6 ->
  analyze_block_section {| Data := Some (x00 :: rest); Version := ver |}
  = Ok ({| b_version := ver; b_migration_version := None;
           b_palette_type := Some 0; b_palette_type_name := Some EMPTY;
           b_entry_count := None; b_entries := None |}, 1).
Proof.
  intros Hv. apply Z.leb_gt in Hv. unfold analyze_block_section.
  cbn [Data]. rewrite Hv. reflexivity.
Qed.

(** C5, as the code has it: on a Fluid buffer of at least two bytes whose
    first byte is 0 the decoder reads exactly one more byte, the hasLevels
    flag, and stops with the cursor at 2 and no entries (a one-byte buffer
    raises); on a Block buffer whose paletteType byte is 0 the decoder stops
    right after that byte, reads no hasLevels flag and leaves the cursor at
    1 (at 5 behind a migration prefix), again with no entries. *)
Theorem empty_section_decode (ver : option Z) :
  (forall (hl : byte) (rest : bytes) (data : bytes),
      data = x00 :: hl :: rest ->
      exists r,
        analyze_fluid_section {| Data := Some data; Version := ver |}
          = Ok (r, 2) /\
        palette_type r = Some 0 /\
        has_levels r = Some (negb (byte_val hl =? 0)) /\
        entries r = None /\ entry_count r = None /\
        sample_positions r = None /\ sample_levels r = None) /\
  analyze_fluid_section {| Data := Some [x00]; Version := ver |}
    = Raise IndexError /\
  (forall (rest : bytes) (data : bytes),
      data = x00 :: rest ->
      Version_get {| Data := Some data; Version := ver |} < 6 ->
      exists r,
        analyze_block_section {| Data := Some data; Version := ver |}
          = Ok (r, 1) /\
        b_palette_type r = Some 0 /\
        b_entries r = None /\ b_entry_count r = None) /\
  (forall (m0 m1 m2 m3 : byte) (rest : bytes) (data : bytes),
      data = m0 :: m1 :: m2 :: m3 :: x00 :: rest ->
      6 <= Version_get {| Data := Some data; Version := ver |} ->
      exists r,
        analyze_block_section {| Data := Some data; Version := ver |}
          = Ok (r, 5) /\
        b_palette_type r = Some 0 /\
        b_entries r = None /\ b_entry_count r = None).
Proof.
  split; [| split; [| split]].
  - intros hl rest data ->.
    eexists. split; [exact (fluid_empty_run ver hl rest) |]. repeat split.
  - reflexivity.
  - intros rest data -> Hv.
    eexists. split; [exact (block_empty_run ver rest Hv) |]. repeat split.
  - intros m0 m1 m2 m3 rest data -> Hv. apply Z.leb_le in Hv.
    unfold analyze_block_section. cbn [Data]. rewrite Hv.
    eexists. split; [reflexivity |]. repeat split.
Qed.

Lemma empty_section_decode_witness :
  (exists r,
     analyze_fluid_section {| Data := Some [B 0; B 0]; Version := None |}
       = Ok (r, 2) /\
     palette_type r = Some 0 /\
     has_levels r = Some false /\
     entries r = None /\ entry_count r = None /\
     sample_positions r = None /\ sample_levels r = None) /\
  (exists r,
     analyze_block_section {| Data := Some [B 0; B 0]; Version := Some 5 |}
       = Ok (r, 1) /\
     b_palette_type r = Some 0 /\
     b_entries r = None /\ b_entry_count r = None).
Proof.
  split.
  - exact (proj1 (empty_section_decode None) (B 0) [] [B 0; B 0] eq_refl).
  - refine (proj1 (proj2 (proj2 (empty_section_decode (Some 5))))
              [B 0] [B 0; B 0] eq_refl _).
    vm_compute. reflexivity.
Defined.

(** C5, as stated, fails for the Block kind: on the section body
    [[0x00, 0x00]] the block decoder stops after one byte, not two, and
    never looks at the hasLevels byte. *)
Lemma block_empty_consumes_one :
  analyze_block_section {| Data := Some [B 0; B 0]; Version := None |}
  = Ok ({| b_version := None; b_migration_version := None;
           b_palette_type := Some 0; b_palette_type_name := Some EMPTY;
           b_entry_count := None; b_entries := None |}, 1)
  /\ analyze_block_section {| Data := Some [B 0; B 1]; Version := None |}
     = analyze_block_section {| Data := Some [B 0; B 0]; Version := None |}
  /\ 1 <> 2.
Proof. repeat split. discriminate. Qed.

Lemma fluid_nibble_range (data : bytes) (i v : Z) :
  fluid_nibble data i = Ok v -> 0 <= v < 16.
Proof.
  unfold fluid_nibble.
  destruct (i mod 2 =? 0); destruct (index data (i / 2)) as [b | e];
    cbn [bind]; try discriminate; intros [= <-]; rewrite land_15;
    apply Z.mod_pos_bound; lia.
Qed.

Lemma level_nibble_range (data : bytes) (i v : Z) :
  level_nibble data i = Ok v -> 0 <= v < 16.
Proof.
  unfold level_nibble.
  destruct (i mod 2 =? 0); destruct (index data (i / 2)) as [b | e];
    cbn [bind]; try discriminate; intros [= <-]; rewrite land_15;
    apply Z.mod_pos_bound; lia.
Qed.

Lemma voxel_body_samples (nibble_of : Z -> result Z) :
  (forall i v, nibble_of i = Ok v -> 0 <= v < 16) ->
  forall i st st',
    Forall nibble_sample (snd st) ->
    voxel_body nibble_of i st = Ok st' ->
    Forall nibble_sample (snd st').
Proof.
  intros Hn i [n positions] st' Hst. unfold voxel_body.
  destruct (nibble_of i) as [v | e] eqn:E; cbn [bind]; [| discriminate].
  apply Hn in E.
  destruct (Z.eqb_spec v 0) as [-> | Hv]; cbn [negb].
  - intros [= <-]. exact Hst.
  - destruct (len positions <? 20); intros [= <-]; [| exact Hst].
    cbn [snd] in *. apply Forall_app. split; [exact Hst |].
    constructor; [| constructor]. unfold nibble_sample. cbn. lia.
Qed.

Lemma voxel_loop_samples (nibble_of : Z -> result Z) (n : Z)
    (count : Z) (positions : list sample) :
  (forall i v, nibble_of i = Ok v -> 0 <= v < 16) ->
  range_loop n (voxel_body nibble_of) (0, []) = Ok (count, positions) ->
  Forall nibble_sample positions.
Proof.
  intros Hn H. unfold range_loop in H.
  apply (for_range_inv (fun st => Forall nibble_sample (snd st))) in H.
  - exact H.
  - intros i st st'. apply voxel_body_samples. exact Hn.
  - constructor.
Qed.

(** C8, as the code has it: the decoder never compares a voxel index or a
    level with entryCount; what holds of every decoded voxel index and of
    every level is that it is a 4-bit value (below 16), and the samples a
    successful decode reports are the non-zero ones (1..15). *)
Theorem fluid_values_are_nibbles (fluid_doc : doc) (r : fluid_result)
    (pos : Z) :
  analyze_fluid_section fluid_doc = Ok (r, pos) ->
  (forall data i v,
      fluid_nibble data i = Ok v \/ level_nibble data i = Ok v ->
      0 <= v < 16) /\
  (forall l, sample_positions r = Some l -> Forall nibble_sample l) /\
  (forall l, sample_levels r = Some l -> Forall nibble_sample l).
Proof.
  intros H. split.
  { intros data i v [Hv | Hv];
      [eapply fluid_nibble_range | eapply level_nibble_range]; eauto. }
  unfold analyze_fluid_section in H.
  destruct (Data fluid_doc) as [data |].
  2:{ injection H as <- _. split; discriminate. }
  cbv zeta in H.
  destruct (index data 0) as [pt | e]; cbn [bind] in H; [| discriminate].
  destruct (pt =? 0).
  { destruct (index data (0 + 1)); cbn [bind] in H; [| discriminate].
    injection H as <- _. split; discriminate. }
  destruct (unpack_BE_H _) as [ec | e]; cbn [bind] in H; [| discriminate].
  destruct (read_entries data ec _) as [[es p] | e]; cbn [bind] in H;
    [| discriminate].
  match type of H with
  | bind ?m _ = _ => destruct m as [[[fbc sp] p1] | e] eqn:V
  end; cbn [bind] in H; [| discriminate].
  destruct (index data p1) as [hb | e]; cbn [bind] in H; [| discriminate].
  match type of H with
  | bind ?m _ = _ => destruct m as [[[nzl sl] p2] | e] eqn:L
  end; cbn [bind] in H; [| discriminate].
  injection H as <- _. cbn [sample_positions sample_levels]. split.
  - intros l ->.
    destruct (pt =? 1).
    + match type of V with
      | bind ?m _ = _ => destruct m as [[fb fp] | e] eqn:R
      end; cbn [bind] in V; [| discriminate].
      injection V as _ <- _.
      eapply voxel_loop_samples; [| exact R]. apply fluid_nibble_range.
    + destruct (pt =? 2); discriminate.
  - intros l ->.
    destruct (negb (hb =? 0)); [| discriminate].
    match type of L with
    | bind ?m _ = _ => destruct m as [[nz lp] | e] eqn:R
    end; cbn [bind] in L; [| discriminate].
    injection L as _ <- _.
    eapply voxel_loop_samples; [| exact R]. apply level_nibble_range.
Qed.

(** ** Loops with a running index *)

Lemma for_range_ind {St : Type} (P : Z -> St -> Prop)
    (body : Z -> St -> result St) :
  (forall i s s', P i s -> body i s = Ok s' -> P (i + 1) s') ->
  forall n i s s',
    P i s -> for_range n i body s = Ok s' -> P (i + Z.of_nat n) s'.
Proof.
  intros Hbody. induction n as [| n IH]; intros i s s' Hs.
  - simpl. intros [= <-]. now rewrite Z.add_0_r.
  - cbn [for_range].
    destruct (body i s) as [s1 | e] eqn:E; cbn [bind]; [| discriminate].
    intros H. apply IH in H; [| eapply Hbody; eauto].
    now replace (i + Z.of_nat (S n)) with (i + 1 + Z.of_nat n) by lia.
Qed.

Lemma for_range_total {St : Type} (P : Z -> St -> Prop)
    (body : Z -> St -> result St) (hi : Z) :
  (forall i s, i < hi -> P i s -> exists s', body i s = Ok s' /\ P (i + 1) s') ->
  forall n i s,
    i + Z.of_nat n <= hi -> P i s ->
    exists s', for_range n i body s = Ok s' /\ P (i + Z.of_nat n) s'.
Proof.
  intros Hbody. induction n as [| n IH]; intros i s Hn Hs.
  - exists s. simpl. now rewrite Z.add_0_r.
  - destruct (Hbody i s ltac:(lia) Hs) as (s1 & E & H1).
    destruct (IH (i + 1) s1 ltac:(lia) H1) as (s' & E' & H').
    exists s'. cbn [for_range]. rewrite E. cbn [bind]. split; [exact E' |].
    now replace (i + Z.of_nat (S n)) with (i + 1 + Z.of_nat n) by lia.
Qed.

(** ** Little-endian fields *)

Lemma unpack_LE_H_Ok (b : bytes) (v : Z) :
  unpack_LE_H b = Ok v -> len b = 2 /\ v = le_int b.
Proof.
  destruct b as [| b0 [| b1 [| b2 b]]]; try discriminate.
  intros [= <-]. split; [reflexivity |]. unfold le_int. cbn [bitstream]. lia.
Qed.

Lemma unpack_LE_H_len (b : bytes) :
  len b = 2 -> unpack_LE_H b = Ok (le_int b).
Proof.
  unfold len. destruct b as [| b0 [| b1 [| b2 b]]]; simpl length; try lia.
  intros _. unfold le_int. cbn [bitstream unpack_LE_H unpack_LE_I]. f_equal. lia.
Qed.

Lemma unpack_LE_h_Ok (b : bytes) (v : Z) :
  unpack_LE_h b = Ok v -> len b = 2 /\ v = signed16 (le_int b).
Proof.
  destruct b as [| b0 [| b1 [| b2 b]]]; try discriminate.
  intros [= <-]. split; [reflexivity |]. unfold le_int, signed16.
  cbn [bitstream].
  replace (byte_val b0 + 256 * (byte_val b1 + 256 * 0))
    with (byte_val b0 + byte_val b1 * 256) by lia.
  reflexivity.
Qed.

Lemma unpack_LE_h_len (b : bytes) :
  len b = 2 -> unpack_LE_h b = Ok (signed16 (le_int b)).
Proof.
  intros H. destruct (unpack_LE_h b) as [v | e] eqn:E.
  - apply unpack_LE_h_Ok in E as [_ ->]. reflexivity.
  - unfold len in H.
    destruct b as [| b0 [| b1 [| b2 b]]]; simpl length in H; try lia.
    discriminate.
Qed.

Lemma unpack_LE_I_Ok (b : bytes) (v : Z) :
  unpack_LE_I b = Ok v -> len b = 4 /\ v = le_int b.
Proof.
  destruct b as [| b0 [| b1 [| b2 [| b3 [| b4 b]]]]]; try discriminate.
  intros [= <-]. split; [reflexivity |]. unfold le_int. cbn [bitstream]. lia.
Qed.

Lemma unpack_LE_I_len (b : bytes) :
  len b = 4 -> unpack_LE_I b = Ok (le_int b).
Proof.
  unfold len.
  destruct b as [| b0 [| b1 [| b2 [| b3 [| b4 b]]]]]; simpl length; try lia.
  intros _. unfold le_int. cbn [bitstream unpack_LE_H unpack_LE_I]. f_equal. lia.
Qed.

Lemma bitstream_nonneg (l : bytes) : 0 <= bitstream l.
Proof.
  induction l as [| b l IH]; cbn [bitstream]; [lia |].
  pose proof (byte_val_range b). lia.
Qed.

(** Bit [n] of the stream is bit [n mod 8] of byte [n / 8]. *)
Lemma bitstream_testbit (l : bytes) (n : Z) :
  0 <= n ->
  Z.testbit (bitstream l) n =
  if n / 8 <? len l
  then Z.testbit (byte_val (nth (Z.to_nat (n / 8)) l x00)) (n mod 8)
  else false.
Proof.
  revert n. induction l as [| b l IH]; intros n Hn.
  - cbn [bitstream]. rewrite Z.bits_0.
    destruct (Z.ltb_spec (n / 8) (len (@nil byte))) as [H | H];
      [| reflexivity].
    pose proof (Z.div_pos n 8 Hn ltac:(lia)). unfold len in H. simpl in H.
    lia.
  - cbn [bitstream]. pose proof (byte_val_range b) as Hb.
    destruct (Z.lt_ge_cases n 8) as [Hlt | Hge].
    + assert (n / 8 = 0) as -> by (apply Z.div_small; lia).
      rewrite Z.mod_small by lia.
      assert ((0 <? len (b :: l)) = true) as ->.
      { apply Z.ltb_lt. unfold len. simpl length. lia. }
      change (nth (Z.to_nat 0) (b :: l) x00) with b.
      rewrite <- (Z.mod_pow2_bits_low (byte_val b + 256 * bitstream l) 8 n)
        by lia.
      change (2 ^ 8) with 256.
      replace ((byte_val b + 256 * bitstream l) mod 256) with (byte_val b);
        [reflexivity |].
      apply (Z.mod_unique _ 256 (bitstream l)); lia.
    + replace n with ((n - 8) + 8) at 1 by lia.
      rewrite <- Z.div_pow2_bits by lia. change (2 ^ 8) with 256.
      replace ((byte_val b + 256 * bitstream l) / 256) with (bitstream l).
      2:{ apply (Z.div_unique _ 256 _ (byte_val b)); lia. }
      rewrite IH by lia.
      assert ((n - 8) / 8 = n / 8 - 1) as ->.
      { replace (n - 8) with (n + (-1) * 8) by lia.
        rewrite Z.div_add by lia. lia. }
      assert ((n - 8) mod 8 = n mod 8) as ->.
      { replace (n - 8) with (n + (-1) * 8) by lia.
        apply Z.mod_add. lia. }
      assert (1 <= n / 8) as Hq by (apply Z.div_le_lower_bound; lia).
      assert (len (b :: l) = len l + 1) as ->
        by (unfold len; simpl length; lia).
      replace (Z.to_nat (n / 8)) with (S (Z.to_nat (n / 8 - 1))) by lia.
      cbn [nth].
      destruct (Z.ltb_spec (n / 8 - 1) (len l));
        destruct (Z.ltb_spec (n / 8) (len l + 1)); try lia; reflexivity.
Qed.

(** ** Heightmap columns *)

Lemma testbit_b2z (t : bool) (m : Z) :
  Z.testbit (Z.b2z t) m = t && (m =? 0).
Proof.
  destruct t; cbn [Z.b2z andb]; [| apply Z.bits_0].
  destruct (Z.eqb_spec m 0) as [-> | Hm]; [reflexivity |].
  destruct (Z.lt_ge_cases m 0) as [Hneg | Hpos].
  - apply Z.testbit_neg_r. exact Hneg.
  - apply Z.bits_above_log2; [lia |]. change (Z.log2 1) with 0. lia.
Qed.

Lemma column_bit_eq (bitfield_data : bytes) (bit_index bit value : Z) :
  0 <= bit_index -> 0 <= bit ->
  column_bit bitfield_data bit_index bit value
  = Ok (Z.lor value
          (Z.shiftl
             (Z.b2z (Z.testbit (bitstream bitfield_data) (bit_index + bit)))
             bit)).
Proof.
  intros Hbi Hbit. unfold column_bit.
  rewrite bitstream_testbit by lia.
  assert (0 <= (bit_index + bit) / 8) as Hq by (apply Z.div_pos; lia).
  destruct (Z.ltb_spec ((bit_index + bit) / 8) (len bitfield_data)) as [H | H].
  - rewrite index_in_range by lia. cbn [bind]. do 3 f_equal.
    change 1 with (Z.ones 1). rewrite Z.land_ones by lia.
    change (2 ^ 1) with 2. rewrite <- Z.bit0_mod.
    rewrite Z.shiftr_spec by lia. rewrite Z.add_0_l. reflexivity.
  - cbn [Z.b2z]. rewrite Z.shiftl_0_l, Z.lor_0_r. reflexivity.
Qed.

Lemma column_value (bitfield_data : bytes) (col_idx : Z) :
  0 <= col_idx ->
  range_loop 10 (column_bit bitfield_data (col_idx * 10)) 0
  = Ok (field10 bitfield_data col_idx).
Proof.
  intros Hc. unfold range_loop.
  set (bi := col_idx * 10). set (s := bitstream bitfield_data).
  pose (P := fun (bit value : Z) =>
               0 <= bit /\
               forall j, 0 <= j ->
                 Z.testbit value j = (j <? bit) && Z.testbit s (bi + j)).
  destruct (for_range_total P (column_bit bitfield_data bi) 10) with
    (n := Z.to_nat 10) (i := 0) (s := 0) as (v & E & Hb & Hv).
  - intros bit value _ [Hbit Hval].
    eexists. split; [apply column_bit_eq; subst bi; lia |].
    split; [lia |]. intros j Hj.
    rewrite Z.lor_spec, Hval by lia. rewrite Z.shiftl_spec by lia.
    rewrite testbit_b2z. fold s.
    destruct (Z.eqb_spec (j - bit) 0) as [Hjb | Hjb].
    + replace j with bit by lia.
      destruct (Z.ltb_spec bit bit); [lia |].
      destruct (Z.ltb_spec bit (bit + 1)); [| lia].
      cbn [andb orb]. now rewrite andb_true_r.
    + rewrite andb_false_r, orb_false_r.
      destruct (Z.ltb_spec j bit); destruct (Z.ltb_spec j (bit + 1));
        try lia; reflexivity.
  - lia.
  - split; [lia |]. intros j Hj. rewrite Z.bits_0.
    destruct (Z.ltb_spec j 0); [lia | reflexivity].
  - rewrite E. f_equal. unfold field10. fold bi. fold s.
    apply Z.bits_inj'. intros j Hj. rewrite Hv by lia.
    change (0 + Z.of_nat (Z.to_nat 10)) with 10. change 1024 with (2 ^ 10).
    destruct (Z.ltb_spec j 10) as [Hlt | Hge]; cbn [andb].
    + rewrite Z.mod_pow2_bits_low by lia. rewrite Z.shiftr_spec by lia.
      f_equal. lia.
    + rewrite Z.mod_pow2_bits_high by lia. reflexivity.
Qed.

Lemma field10_range (bitfield_data : bytes) (col_idx : Z) :
  0 <= field10 bitfield_data col_idx < 1024.
Proof. unfold field10. apply Z.mod_pos_bound. lia. Qed.

Lemma column_body_eq (heights_palette : list Z) (bitfield_data : bytes)
    (col_idx : Z) (sample_heights : list height_sample) :
  0 <= col_idx ->
  column_body heights_palette bitfield_data col_idx sample_heights
  = Ok (sample_heights ++
        [column_sample heights_palette bitfield_data col_idx]).
Proof.
  intros Hc. unfold column_body. rewrite column_value by assumption.
  cbn [bind]. pose proof (field10_range bitfield_data col_idx) as Hv.
  set (value := field10 bitfield_data col_idx) in *.
  assert ((if value <? len heights_palette
           then item heights_palette value else Ok (-1))
          = Ok (palette_height heights_palette value)) as ->.
  { unfold palette_height.
    destruct (Z.ltb_spec value (len heights_palette)) as [H | H].
    - apply item_in_range. lia.
    - f_equal. symmetry. apply nth_overflow. unfold len in H. lia. }
  cbn [bind]. unfold column_sample. fold value.
  assert (Z.land col_idx 31 = col_idx mod 32) as ->.
  { change 31 with (Z.ones 5). rewrite Z.land_ones by lia. reflexivity. }
  assert (Z.shiftr col_idx 5 = col_idx / 32) as ->.
  { rewrite Z.shiftr_div_pow2 by lia. reflexivity. }
  reflexivity.
Qed.

Lemma column_loop (heights_palette : list Z) (bitfield_data : bytes) (n : nat) :
  exists sample_heights,
    for_range n 0 (column_body heights_palette bitfield_data) []
      = Ok sample_heights /\
    len sample_heights = Z.of_nat n /\
    forall c, 0 <= c < Z.of_nat n ->
      nth_error sample_heights (Z.to_nat c)
      = Some (column_sample heights_palette bitfield_data c).
Proof.
  pose (P := fun (i : Z) (l : list height_sample) =>
               0 <= i /\ len l = i /\
               forall c, 0 <= c < i ->
                 nth_error l (Z.to_nat c)
                 = Some (column_sample heights_palette bitfield_data c)).
  destruct (for_range_total P (column_body heights_palette bitfield_data)
              (Z.of_nat n)) with (n := n) (i := 0)
                                 (s := @nil height_sample)
    as (l & E & _ & Hl & Hall).
  - intros i l _ (Hi & Hlen & Hnth).
    eexists. split; [apply column_body_eq; exact Hi |].
    split; [lia |]. split.
    + rewrite len_app, Hlen. reflexivity.
    + intros c Hc. destruct (Z.eq_dec c i) as [-> | Hne].
      * rewrite nth_error_app2 by (unfold len in Hlen; lia).
        replace (Z.to_nat i - length l)%nat with 0%nat
          by (unfold len in Hlen; lia).
        reflexivity.
      * rewrite nth_error_app1 by (unfold len in Hlen; lia).
        apply Hnth. lia.
  - lia.
  - split; [lia |]. split; [reflexivity |]. intros c Hc. lia.
  - exists l. split; [exact E |]. split; [lia |].
    intros c Hc. apply Hall. lia.
Qed.

(** ** The heightmap header *)

Lemma palette_inv_extend (data : bytes) (i : Z) (hp : list Z) (pos : Z) :
  palette_inv data i (hp, pos) -> pos + 2 <= len data ->
  palette_inv data (i + 1)
    (hp ++ [signed16 (le_int (slice data pos (pos + 2)))], pos + 2).
Proof.
  intros (Hi & Hlen & Hpos & Hfit & Hnth) Hroom. unfold palette_inv.
  cbn [fst snd] in *.
  split; [lia |]. split; [rewrite len_app, Hlen; reflexivity |].
  split; [lia |]. split; [lia |].
  intros k Hk. destruct (Z.eq_dec k i) as [-> | Hne].
  - rewrite nth_error_app2 by (unfold len in Hlen; lia).
    replace (Z.to_nat i - length hp)%nat with 0%nat
      by (unfold len in Hlen; lia).
    unfold stored_height. rewrite <- Hpos. reflexivity.
  - rewrite nth_error_app1 by (unfold len in Hlen; lia).
    apply Hnth. lia.
Qed.

Lemma palette_body_inv (data : bytes) (i j : Z) (st st' : list Z * Z) :
  palette_inv data i st -> palette_body data j st = Ok st' ->
  palette_inv data (i + 1) st'.
Proof.
  destruct st as [hp pos]. intros Hinv. unfold palette_body.
  destruct (unpack_LE_h _) as [h | e] eqn:U; cbn [bind]; [| discriminate].
  intros [= <-]. apply unpack_LE_h_Ok in U as [Hl ->].
  apply palette_inv_extend; [exact Hinv |].
  destruct Hinv as (Hi & _ & Hpos & _). cbn [snd] in Hpos.
  rewrite len_slice in Hl by lia. lia.
Qed.

Lemma palette_body_total (data : bytes) (n i j : Z) (st : list Z * Z) :
  3 + 2 * n <= len data -> i < n -> palette_inv data i st ->
  exists st', palette_body data j st = Ok st' /\ palette_inv data (i + 1) st'.
Proof.
  destruct st as [hp pos]. intros Hroom Hin Hinv.
  pose proof Hinv as (Hi & _ & Hpos & _). cbn [snd] in Hpos.
  eexists. unfold palette_body.
  rewrite unpack_LE_h_len by (rewrite len_slice by lia; lia).
  cbn [bind]. split; [reflexivity |].
  apply palette_inv_extend; [exact Hinv | lia].
Qed.

Lemma palette_inv_start (data : bytes) : palette_inv data 0 ([], 3).
Proof.
  unfold palette_inv. cbn [fst snd].
  split; [lia |]. split; [reflexivity |]. split; [reflexivity |].
  split; lia.
Qed.

Lemma le_int_nonneg (l : bytes) : 0 <= le_int l.
Proof. apply bitstream_nonneg. Qed.

(** Everything a successful run of [analyze_heightmap] has read. *)
Lemma heightmap_run (block_chunk_doc : doc) (data : bytes)
    (l : heightmap_locals) :
  Data block_chunk_doc = Some data ->
  analyze_heightmap_locals block_chunk_doc = Ok l ->
  let pc := le_int (slice data 1 3) in
  let p := 3 + 2 * pc in
  let bl := le_int (slice data p (p + 4)) in
  l_palette_count l = pc /\
  palette_inv data pc (l_heights_palette l, p) /\
  p + 4 <= len data /\
  l_bitfield_length l = bl /\
  l_bitfield_data l = slice data (p + 4) (p + 4 + bl) /\
  l_pos l = p + 4 + bl /\
  len (l_sample_heights l) = 64 /\
  (forall c, 0 <= c < 64 ->
     nth_error (l_sample_heights l) (Z.to_nat c)
     = Some (column_sample (l_heights_palette l) (l_bitfield_data l) c)) /\
  sample_heights (l_result l) = Some (firstn 20 (l_sample_heights l)) /\
  height_palette_count (l_result l) = Some pc /\
  height_bitfield_length (l_result l) = Some bl.
Proof.
  intros HD H. unfold analyze_heightmap_locals in H. rewrite HD in H.
  cbv zeta in H.
  destruct (index data 0) as [np | e]; cbn [bind] in H; [| discriminate].
  change (0 + 1 + 2) with 3 in H. change (0 + 1) with 1 in H.
  destruct (unpack_LE_H (slice data 1 3)) as [pc | e] eqn:U; cbn [bind] in H;
    [| discriminate].
  apply unpack_LE_H_Ok in U as [_ ->].
  pose proof (le_int_nonneg (slice data 1 3)) as Hpc.
  set (pc := le_int (slice data 1 3)) in *.
  change (1 + 2) with 3 in H.
  destruct (range_loop pc (palette_body data) ([], 3)) as [[hp pos] | e] eqn:PL;
    cbn [bind] in H; [| discriminate].
  unfold range_loop in PL.
  apply (for_range_ind (palette_inv data) (palette_body data)) in PL;
    [| intros i s s'; apply palette_body_inv | apply palette_inv_start].
  rewrite Z.add_0_l, Z2Nat.id in PL by lia.
  pose proof PL as (_ & _ & Hpos & _). cbn [snd] in Hpos. subst pos.
  destruct (unpack_LE_I _) as [bl | e] eqn:UI; cbn [bind] in H;
    [| discriminate].
  apply unpack_LE_I_Ok in UI as [Hl4 ->].
  rewrite len_slice in Hl4 by lia.
  unfold range_loop in H.
  change (Z.to_nat (Z.min 64 1024)) with 64%nat in H.
  match type of H with
  | bind (for_range _ _ (column_body ?hp' ?bf) _) _ = _ =>
      destruct (column_loop hp' bf 64) as (sh & E & Hlen & Hnth)
  end.
  rewrite E in H. cbn [bind] in H. injection H as <-.
  cbn [l_palette_count l_heights_palette l_bitfield_length l_bitfield_data
       l_pos l_sample_heights l_result sample_heights height_palette_count
       height_bitfield_length].
  cbv zeta. repeat (split; [first [reflexivity | assumption | lia] |]).
  reflexivity.
Qed.

Lemma heightmap_total (block_chunk_doc : doc) (data : bytes) :
  Data block_chunk_doc = Some data ->
  7 + 2 * le_int (slice data 1 3) <= len data ->
  exists l, analyze_heightmap_locals block_chunk_doc = Ok l.
Proof.
  intros HD Hroom. unfold analyze_heightmap_locals. rewrite HD. cbv zeta.
  pose proof (le_int_nonneg (slice data 1 3)) as Hpc.
  rewrite index_in_range by lia. cbn [bind].
  change (0 + 1 + 2) with 3. change (0 + 1) with 1.
  rewrite unpack_LE_H_len by (rewrite len_slice by lia; lia). cbn [bind].
  set (pc := le_int (slice data 1 3)) in *. change (1 + 2) with 3.
  unfold range_loop at 1.
  destruct (for_range_total (palette_inv data) (palette_body data) pc)
    with (n := Z.to_nat pc) (i := 0) (s := (@nil Z, 3))
    as ([hp pos] & E & Hinv).
  - intros i s Hi. apply (palette_body_total data pc); lia.
  - lia.
  - apply palette_inv_start.
  - rewrite E. cbn [bind].
    rewrite Z.add_0_l, Z2Nat.id in Hinv by lia.
    destruct Hinv as (_ & _ & Hpos & _). cbn [snd] in Hpos. subst pos.
    rewrite unpack_LE_I_len by (rewrite len_slice by lia; lia). cbn [bind].
    unfold range_loop. change (Z.to_nat (Z.min 64 1024)) with 64%nat.
    match goal with
    | |- context [for_range _ _ (column_body ?hp' ?bf) _] =>
        destruct (column_loop hp' bf 64) as (sh & Es & _)
    end.
    rewrite Es. cbn [bind]. eexists. reflexivity.
Qed.

(** C3, as the code has it: paletteCount is the 16-bit little-endian
    number at bytes 1-2, every palette height the signed 16-bit
    little-endian number at its place, bitfieldLength the 32-bit
    little-endian number after the palette; the bitfield is the slice of
    at most bitfieldLength bytes that follows: the [min(bitfieldLength,
    remaining)] bytes left in the buffer, exactly bitfieldLength when the
    buffer holds them.  The decode succeeds as soon as the buffer holds the
    header fields. *)
Theorem heightmap_header_little_endian (block_chunk_doc : doc)
    (data : bytes) :
  Data block_chunk_doc = Some data ->
  (7 + 2 * le_int (slice data 1 3) <= len data ->
     exists l, analyze_heightmap_locals block_chunk_doc = Ok l) /\
  (forall l,
     analyze_heightmap_locals block_chunk_doc = Ok l ->
     let p := 3 + 2 * l_palette_count l in
     l_palette_count l = le_int (slice data 1 3) /\
     len (l_heights_palette l) = l_palette_count l /\
     (forall k, 0 <= k < l_palette_count l ->
        nth_error (l_heights_palette l) (Z.to_nat k)
        = Some (signed16 (le_int (slice data (3 + 2 * k) (3 + 2 * k + 2))))) /\
     l_bitfield_length l = le_int (slice data p (p + 4)) /\
     l_bitfield_data l = slice data (p + 4) (p + 4 + l_bitfield_length l) /\
     len (l_bitfield_data l)
       = Z.min (l_bitfield_length l) (len data - (p + 4)) /\
     (p + 4 + l_bitfield_length l <= len data ->
        len (l_bitfield_data l) = l_bitfield_length l)).
Proof.
  intros HD. split; [apply heightmap_total; exact HD |].
  intros l H.
  destruct (heightmap_run block_chunk_doc data l HD H)
    as (Hpc & Hinv & Hroom & Hbl & Hbf & _).
  destruct Hinv as (Hnn & Hlen & _ & _ & Hnth). cbn [fst] in Hlen, Hnth.
  rewrite <- Hpc in Hroom, Hbl, Hbf, Hlen, Hnth.
  rewrite <- Hbl in Hbf. cbv zeta.
  pose proof (le_int_nonneg
                (slice data (3 + 2 * l_palette_count l)
                   (3 + 2 * l_palette_count l + 4))) as Hblnn.
  rewrite <- Hbl in Hblnn.
  split; [exact Hpc |]. split; [exact Hlen |]. split; [exact Hnth |].
  split; [exact Hbl |]. split; [exact Hbf |].
  assert (len (l_bitfield_data l)
          = Z.min (l_bitfield_length l)
              (len data - (3 + 2 * l_palette_count l + 4))) as Hlenbf.
  { rewrite Hbf. rewrite len_slice by lia. lia. }
  split; [exact Hlenbf | lia].
Qed.

Lemma heightmap_header_little_endian_witness :
  exists l,
    analyze_heightmap_locals
      {| Data := Some [B 1; B 4; B 0; B 192; B 255; B 0; B 0; B 64; B 0;
                       B 128; B 0; B 3; B 0; B 0; B 0; B 1; B 0; B 255];
         Version := Some 3 |} = Ok l.
Proof.
  refine (proj1 (heightmap_header_little_endian
                   {| Data := Some [B 1; B 4; B 0; B 192; B 255; B 0; B 0;
                                    B 64; B 0; B 128; B 0; B 3; B 0; B 0;
                                    B 0; B 1; B 0; B 255];
                      Version := Some 3 |}
                   [B 1; B 4; B 0; B 192; B 255; B 0; B 0; B 64; B 0;
                    B 128; B 0; B 3; B 0; B 0; B 0; B 1; B 0; B 255]
                   eq_refl) _).
  vm_compute. discriminate.
Defined.

(** C3, as stated, fails: the header declares a bitfield of five bytes, the
    buffer holds two, and the decode succeeds with the two. *)
Lemma heightmap_short_bitfield :
  exists l,
    analyze_heightmap_locals
      {| Data := Some [B 0; B 0; B 0; B 5; B 0; B 0; B 0; B 1; B 2];
         Version := None |} = Ok l /\
    l_bitfield_length l = 5 /\
    l_bitfield_data l = [B 1; B 2] /\
    len (l_bitfield_data l) <> l_bitfield_length l.
Proof.
  eexists. split; [vm_compute; reflexivity |].
  cbn [l_bitfield_length l_bitfield_data].
  split; [reflexivity |]. split; [reflexivity |]. discriminate.
Qed.

(** C2, as the code has it: for every column the decoder visits, that is
    for every columnIndex below 64 ([range(min(64, 1024))]; the returned
    result keeps the first 20), the palette index is the 10-bit field at
    bit [columnIndex*10] of the bitfield read least-significant bit first
    across byte boundaries (missing bytes count as zero), and the height is
    the palette entry at that index, or -1 when there is none.  The column
    step computes this for any columnIndex; with palette [-64, 0, 64, 128]
    and bitfield [1, 0] column 0 has index 1 and height 0. *)
Theorem heightmap_column_decode (block_chunk_doc : doc) (data : bytes)
    (l : heightmap_locals) (col : Z) :
  Data block_chunk_doc = Some data ->
  analyze_heightmap_locals block_chunk_doc = Ok l ->
  0 <= col < 64 ->
  nth_error (l_sample_heights l) (Z.to_nat col)
    = Some (column_sample (l_heights_palette l) (l_bitfield_data l) col) /\
  0 <= field10 (l_bitfield_data l) col < 1024 /\
  len (l_sample_heights l) = 64 /\
  (col < 20 ->
     exists shown,
       sample_heights (l_result l) = Some shown /\
       nth_error shown (Z.to_nat col)
       = Some (column_sample (l_heights_palette l) (l_bitfield_data l) col)) /\
  (forall hp bf c acc,
     0 <= c ->
     column_body hp bf c acc = Ok (acc ++ [column_sample hp bf c])) /\
  column_body [-64; 0; 64; 128] [B 1; B 0] 0 []
    = Ok [{| x := 0; z := 0; palette_idx := 1; height := 0 |}].
Proof.
  intros HD H Hcol.
  destruct (heightmap_run block_chunk_doc data l HD H)
    as (_ & _ & _ & _ & _ & _ & Hlen & Hnth & Hshown & _).
  split; [apply Hnth; exact Hcol |].
  split; [apply field10_range |].
  split; [exact Hlen |].
  split; [| split; [intros; now apply column_body_eq | reflexivity]].
  intros Hc. eexists. split; [exact Hshown |].
  rewrite nth_error_firstn.
  destruct (Nat.ltb_spec (Z.to_nat col) 20); [| lia].
  apply Hnth. exact Hcol.
Qed.

Lemma heightmap_column_decode_witness :
  exists l,
    analyze_heightmap_locals
      {| Data := Some [B 1; B 4; B 0; B 192; B 255; B 0; B 0; B 64; B 0;
                       B 128; B 0; B 3; B 0; B 0; B 0; B 1; B 0; B 255];
         Version := Some 3 |} = Ok l /\
    nth_error (l_sample_heights l) 0
    = Some (column_sample (l_heights_palette l) (l_bitfield_data l) 0).
Proof.
  eexists. split; [vm_compute; reflexivity |].
  refine (proj1 (heightmap_column_decode
                   {| Data := Some [B 1; B 4; B 0; B 192; B 255; B 0; B 0;
                                    B 64; B 0; B 128; B 0; B 3; B 0; B 0;
                                    B 0; B 1; B 0; B 255];
                      Version := Some 3 |}
                   [B 1; B 4; B 0; B 192; B 255; B 0; B 0; B 64; B 0;
                    B 128; B 0; B 3; B 0; B 0; B 0; B 1; B 0; B 255]
                   _ 0 eq_refl eq_refl _)).
  lia.
Defined.

(** C2, as stated, fails: column 64 is a column of the heightmap, and the
    decoder has no entry for it (nor, in what it returns, for column 20). *)
Lemma heightmap_column_64_not_decoded :
  exists l shown,
    analyze_heightmap_locals
      {| Data := Some [B 1; B 4; B 0; B 192; B 255; B 0; B 0; B 64; B 0;
                       B 128; B 0; B 3; B 0; B 0; B 0; B 1; B 0; B 255];
         Version := Some 3 |} = Ok l /\
    0 <= 64 < 1024 /\
    nth_error (l_sample_heights l) 64 = None /\
    sample_heights (l_result l) = Some shown /\
    nth_error shown 20 = None.
Proof.
  eexists. eexists. split; [vm_compute; reflexivity |].
  split; [lia |]. split; [reflexivity |]. split; reflexivity.
Qed.

(** ** A HALF_BYTE section with levels, end to end *)

Lemma voxel_loop_head (nibble_of : Z -> result Z) (n : nat) (v : Z) :
  (forall i, 0 <= i < Z.of_nat n -> exists w, nibble_of i = Ok w) ->
  nibble_of 0 = Ok v -> v <> 0 -> (0 < n)%nat ->
  exists count tl,
    for_range n 0 (voxel_body nibble_of) (0, []) = Ok (count, first_sample v :: tl).
Proof.
  intros Htotal H0 Hv Hn.
  pose (P := fun (i : Z) (st : Z * list sample) =>
               0 <= i /\
               (i = 0 -> st = (0, [])) /\
               (0 < i -> exists tl, snd st = first_sample v :: tl)).
  destruct (for_range_total P (voxel_body nibble_of) (Z.of_nat n))
    with (n := n) (i := 0) (s := (0, @nil sample))
    as ([count ps] & E & _ & _ & Hhead).
  - intros i [c ps] Hi (Hi0 & Hstart & Hhead).
    destruct (Z.eq_dec i 0) as [-> | Hne].
    + injection (Hstart eq_refl) as -> ->. unfold voxel_body.
      rewrite H0. cbn [bind].
      destruct (Z.eqb_spec v 0) as [? | _]; [contradiction |]. cbn [negb].
      change (len (@nil sample) <? 20) with true. cbv iota.
      eexists. split; [reflexivity |].
      split; [lia |]. split; [lia |]. intros _. exists []. reflexivity.
    + destruct (Hhead ltac:(lia)) as [tl Htl]. cbn [snd] in Htl. subst ps.
      destruct (Htotal i ltac:(lia)) as [w Hw]. unfold voxel_body.
      rewrite Hw. cbn [bind].
      destruct (negb (w =? 0));
        [destruct (len (first_sample v :: tl) <? 20) |];
        eexists; (split; [reflexivity |]);
        (split; [lia |]); (split; [lia |]); intros _; cbn [snd];
        [rewrite <- app_comm_cons | |]; eexists; reflexivity.
  - lia.
  - split; [lia |]. split; [reflexivity | lia].
  - destruct (Hhead ltac:(lia)) as [tl Htl]. cbn [snd] in Htl. subst ps.
    exists count, tl. exact E.
Qed.

Lemma nibbles_total (data : bytes) (i : Z) :
  0 <= i < 2 * len data ->
  (exists w, fluid_nibble data i = Ok w) /\
  (exists w, level_nibble data i = Ok w).
Proof.
  intros Hi.
  assert (0 <= i / 2 < len data) as Hq.
  { split; [apply Z.div_pos; lia | apply Z.div_lt_upper_bound; lia]. }
  unfold fluid_nibble, level_nibble. rewrite index_in_range by exact Hq.
  cbn [bind]. destruct (i mod 2 =? 0); split; eexists; reflexivity.
Qed.

(** A HALF_BYTE section that holds both arrays decodes, and its first
    voxel, when it is not zero, is the first sample of each list. *)
Lemma fluid_half_byte_run (data : bytes) (ver : option Z)
    (ec : Z) (es : list entry) (p v hb w : Z) :
  index data 0 = Ok 1 ->
  unpack_BE_H (slice data 1 3) = Ok ec ->
  read_entries data ec 3 = Ok (es, p) ->
  0 <= p -> p + 32769 <= len data ->
  fluid_nibble (slice data p (p + 16384)) 0 = Ok v -> v <> 0 ->
  index data (p + 16384) = Ok hb -> hb <> 0 ->
  level_nibble (slice data (p + 16384 + 1) (p + 16384 + 1 + 16384)) 0 = Ok w ->
  w <> 0 ->
  exists r tl tl',
    analyze_fluid_section {| Data := Some data; Version := ver |}
      = Ok (r, p + 16384 + 1 + 16384) /\
    palette_type r = Some 1 /\
    entry_count r = Some ec /\
    entries r = Some es /\
    sample_positions r = Some (first_sample v :: tl) /\
    sample_levels r = Some (first_sample w :: tl').
Proof.
  intros H0 H1 H2 Hp Hroom Hv Hv0 Hhb Hhb0 Hw Hw0.
  unfold analyze_fluid_section. cbn [Data]. cbv zeta.
  rewrite H0. cbn [bind]. change (1 =? 0) with false. cbv iota.
  change (0 + 1 + 2) with 3. change (0 + 1) with 1.
  rewrite H1. cbn [bind]. change (1 + 2) with 3. rewrite H2. cbn [bind].
  change (1 =? 1) with true. cbv iota.
  unfold range_loop.
  destruct (voxel_loop_head (fluid_nibble (slice data p (p + 16384)))
              (Z.to_nat 32768) v) as (c1 & tl & E1); try assumption.
  { intros i Hi. apply nibbles_total. rewrite len_slice by lia. lia. }
  { lia. }
  rewrite E1. cbn [bind]. rewrite Hhb. cbn [bind].
  destruct (Z.eqb_spec hb 0) as [? | _]; [contradiction |]. cbn [negb].
  destruct (voxel_loop_head
              (level_nibble
                 (slice data (p + 16384 + 1) (p + 16384 + 1 + 16384)))
              (Z.to_nat 32768) w) as (c2 & tl' & E2); try assumption.
  { intros i Hi. apply nibbles_total. rewrite len_slice by lia. lia. }
  { lia. }
  rewrite E2. cbn [bind].
  eexists. exists tl, tl'. split; [reflexivity |]. cbn. repeat split.
Qed.

Lemma water_section_run :
  exists r tl tl',
    analyze_fluid_section {| Data := Some water_section; Version := None |}
      = Ok (r, 32792) /\
    palette_type r = Some 1 /\
    entry_count r = Some 2 /\
    entries r
      = Some [{| id := 0; name := [69; 109; 112; 116; 121]; count := 0 |};
              {| id := 7; name := [87; 97; 116; 101; 114]; count := 1 |}] /\
    sample_positions r = Some (first_sample 5 :: tl) /\
    sample_levels r = Some (first_sample 8 :: tl').
Proof.
  apply (fluid_half_byte_run water_section None 2
           [{| id := 0; name := [69; 109; 112; 116; 121]; count := 0 |};
            {| id := 7; name := [87; 97; 116; 101; 114]; count := 1 |}]
           23 5 1 8).
  - vm_compute. reflexivity.
  - vm_compute. reflexivity.
  - vm_compute. reflexivity.
  - lia.
  - vm_compute. discriminate.
  - vm_compute. reflexivity.
  - discriminate.
  - vm_compute. reflexivity.
  - discriminate.
  - vm_compute. reflexivity.
  - discriminate.
Qed.

Lemma fluid_values_are_nibbles_witness :
  exists r pos,
    analyze_fluid_section {| Data := Some water_section; Version := None |}
      = Ok (r, pos) /\
    (forall l, sample_positions r = Some l -> Forall nibble_sample l) /\
    (forall l, sample_levels r = Some l -> Forall nibble_sample l).
Proof.
  destruct water_section_run as (r & tl & tl' & E & _).
  exists r, 32792. split; [exact E |].
  exact (proj2 (fluid_values_are_nibbles _ r _ E)).
Defined.

(** C8, as stated, fails: a HALF_BYTE section with two palette entries
    decodes although its first voxel has palette index 5 and level 8, and
    neither is below the entry count 2. *)
Lemma fluid_index_above_entry_count :
  exists r pos tl tl',
    analyze_fluid_section {| Data := Some water_section; Version := None |}
      = Ok (r, pos) /\
    palette_type r = Some 1 /\
    entry_count r = Some 2 /\
    sample_positions r = Some (first_sample 5 :: tl) /\
    sample_levels r = Some (first_sample 8 :: tl') /\
    ~ value (first_sample 5) < 2 /\
    ~ value (first_sample 8) < 2.
Proof.
  destruct water_section_run as (r & tl & tl' & E & Hpt & Hec & _ & Hsp & Hsl).
  exists r, 32792, tl, tl'.
  split; [exact E |]. split; [exact Hpt |]. split; [exact Hec |].
  split; [exact Hsp |]. split; [exact Hsl |].
  cbn [value first_sample]. lia.
Qed.

(** * Further properties of the container reader *)

Lemma for_range_snoc {St : Type} (body : Z -> St -> result St) (n : nat) :
  forall i s,
    for_range (S n) i body s
    = (s' <- for_range n i body s ;; body (i + Z.of_nat n) s').
Proof.
  induction n as [| n IH]; intros i s.
  - cbn [for_range bind]. rewrite Z.add_0_r.
    destruct (body i s); reflexivity.
  - change (for_range (S (S n)) i body s)
      with (s1 <- body i s ;; for_range (S n) (i + 1) body s1).
    change (for_range (S n) i body s)
      with (s1 <- body i s ;; for_range n (i + 1) body s1).
    destruct (body i s) as [s1 | e]; cbn [bind]; [| reflexivity].
    rewrite IH. replace (i + 1 + Z.of_nat n) with (i + Z.of_nat (S n)) by lia.
    reflexivity.
Qed.

Lemma be_int4_range (b : bytes) :
  len b = 4 -> 0 <= be_int b < 4294967296.
Proof.
  unfold len.
  destruct b as [| b0 [| b1 [| b2 [| b3 [| b4 b]]]]]; simpl length; try lia.
  intros _. unfold be_int. cbn [fold_left].
  pose proof (byte_val_range b0). pose proof (byte_val_range b1).
  pose proof (byte_val_range b2). pose proof (byte_val_range b3). lia.
Qed.

Lemma length_index_table (c : bytes) (n : nat) :
  forall q, length (index_table c q n) = n.
Proof. induction n as [| n IH]; intros q; simpl; [| rewrite IH]; reflexivity. Qed.

Lemma nth_index_table (c : bytes) (n : nat) :
  forall q k, (k < n)%nat ->
    nth_error (index_table c q n) k
    = Some (be_int (slice c (q + 4 * Z.of_nat k) (q + 4 * Z.of_nat k + 4))).
Proof.
  induction n as [| n IH]; intros q k Hk; [lia |].
  destruct k as [| k]; cbn [index_table nth_error].
  - rewrite Z.mul_0_r, Z.add_0_r. reflexivity.
  - rewrite IH by lia. do 3 f_equal; lia.
Qed.

(** The loop of [read_blob_index], from any cursor and any list read so
    far. *)
Lemma blob_index_loop (c : bytes) (n : nat) :
  forall (i q : Z) (indices : list Z),
    0 <= q ->
    for_range n i
      (fun _ '(indices, f) =>
         let '(b, f) := f_read 4 f in
         idx <- unpack_BE_I b ;; Ok (indices ++ [idx], f))
      (indices, {| content := c; cursor := q |})
    = if (n =? 0)%nat || (q + 4 * Z.of_nat n <=? len c)
      then Ok (indices ++ index_table c q n,
               {| content := c; cursor := q + 4 * Z.of_nat n |})
      else Raise StructError.
Proof.
  induction n as [| n IH]; intros i q indices Hq.
  - cbn [for_range Nat.eqb orb index_table]. rewrite app_nil_r.
    do 3 f_equal. lia.
  - cbn [for_range Nat.eqb orb]. rewrite read_BE_I by exact Hq.
    destruct (Z.leb_spec (q + 4) (len c)) as [H4 | H4].
    + cbn [bind]. rewrite IH by lia. cbn [index_table].
      rewrite <- app_assoc. cbn [app].
      destruct n as [| n].
      * cbn [Nat.eqb orb].
        destruct (Z.leb_spec (q + 4 * Z.of_nat 1) (len c)); [| lia].
        do 3 f_equal. lia.
      * cbn [Nat.eqb orb].
        destruct (Z.leb_spec (q + 4 + 4 * Z.of_nat (S n)) (len c));
          destruct (Z.leb_spec (q + 4 * Z.of_nat (S (S n))) (len c));
          try lia; [| reflexivity].
        do 3 f_equal. lia.
    + destruct (Z.leb_spec (q + 4 * Z.of_nat (S n)) (len c)); [lia |].
      reflexivity.
Qed.



(** X1: [read_blob_index] on a table that fits in the file returns the
    [blob_count] big-endian 32-bit numbers stored from the cursor on (entry
    [k] is the number at byte [4k] after the cursor, so each lies in
    0..2^32-1) and leaves the cursor behind the table; for a positive count
    it raises [struct.error] exactly when the table does not fit, and it
    raises nothing else; a count of zero (or less) reads nothing. *)
Theorem read_blob_index_table (c : bytes) (p blob_count : Z) :
  0 <= p ->
  (0 <= blob_count -> p + 4 * blob_count <= len c ->
     read_blob_index {| content := c; cursor := p |} blob_count
     = Ok (index_table c p (Z.to_nat blob_count),
           {| content := c; cursor := p + 4 * blob_count |})) /\
  (0 < blob_count ->
     (len c < p + 4 * blob_count <->
        read_blob_index {| content := c; cursor := p |} blob_count
        = Raise StructError)) /\
  (blob_count <= 0 ->
     read_blob_index {| content := c; cursor := p |} blob_count
     = Ok ([], {| content := c; cursor := p |})) /\
  (forall e,
     read_blob_index {| content := c; cursor := p |} blob_count = Raise e ->
     e = StructError /\ 0 < blob_count /\ len c < p + 4 * blob_count) /\
  (forall indices f',
     read_blob_index {| content := c; cursor := p |} blob_count
       = Ok (indices, f') ->
     indices = index_table c p (Z.to_nat blob_count) /\
     len indices = Z.max 0 blob_count /\
     f' = {| content := c; cursor := p + 4 * Z.max 0 blob_count |} /\
     Forall (fun e => 0 <= e < 4294967296) indices /\
     forall k, 0 <= k < blob_count ->
       nth_error indices (Z.to_nat k)
       = Some (be_int (slice c (p + 4 * k) (p + 4 * k + 4)))).
Proof.
  intros Hp. unfold read_blob_index, range_loop.
  rewrite blob_index_loop by exact Hp. cbn [app].
  split; [| split; [| split; [| split]]].
  - intros Hbc Hfit. rewrite Z2Nat.id by exact Hbc.
    destruct (Z.leb_spec (p + 4 * blob_count) (len c)); [| lia].
    rewrite orb_true_r. reflexivity.
  - intros Hbc.
    destruct (Nat.eqb_spec (Z.to_nat blob_count) 0) as [? | _]; [lia |].
    cbn [orb]. rewrite Z2Nat.id by lia.
    destruct (Z.leb_spec (p + 4 * blob_count) (len c)); split;
      try lia; try discriminate; reflexivity.
  - intros Hbc. replace (Z.to_nat blob_count) with 0%nat by lia.
    cbn [Nat.eqb orb index_table]. do 3 f_equal. lia.
  - intros e.
    destruct (Nat.eqb_spec (Z.to_nat blob_count) 0) as [? | Hn];
      cbn [orb]; [discriminate |].
    destruct (Z.leb_spec (p + 4 * Z.of_nat (Z.to_nat blob_count)) (len c));
      [discriminate |].
    intros He. split; [congruence | lia].
  - intros indices f'.
    destruct (_ || _) eqn:Fit; [| discriminate]. intros [= <- <-].
    assert (Z.of_nat (Z.to_nat blob_count) = Z.max 0 blob_count) as Hn by lia.
    split; [reflexivity |].
    split; [unfold len; rewrite length_index_table; exact Hn |].
    split; [rewrite Hn; reflexivity |]. split.
    + apply Forall_forall. intros e He.
      apply In_nth_error in He as [k Hk].
      assert (k < Z.to_nat blob_count)%nat as Hlt.
      { rewrite <- (length_index_table c (Z.to_nat blob_count) p).
        apply nth_error_Some. congruence. }
      rewrite nth_index_table in Hk by exact Hlt.
      assert (e = be_int (slice c (p + 4 * Z.of_nat k)
                            (p + 4 * Z.of_nat k + 4))) as -> by congruence.
      apply be_int4_range. rewrite len_slice by lia.
      destruct (Nat.eqb_spec (Z.to_nat blob_count) 0) as [? | _]; [lia |].
      cbn [orb] in Fit. apply Z.leb_le in Fit. lia.
    + intros k Hk. rewrite nth_index_table by lia.
      rewrite Z2Nat.id by lia. reflexivity.
Qed.

Lemma read_blob_index_table_witness :
  read_blob_index
    {| content := [B 9; B 9; B 0; B 0; B 0; B 3; B 0; B 0; B 1; B 0; B 7];
       cursor := 2 |} 2
  = Ok ([3; 256],
        {| content := [B 9; B 9; B 0; B 0; B 0; B 3; B 0; B 0; B 1; B 0; B 7];
           cursor := 10 |}).
Proof.
  refine (proj1 (read_blob_index_table
                   [B 9; B 9; B 0; B 0; B 0; B 3; B 0; B 0; B 1; B 0; B 7]
                   2 2 _) _ _).
  - lia.
  - lia.
  - vm_compute. discriminate.
Defined.

(** X2: segments lie behind the index table and do not overlap: the
    segment of a non-zero entry starts at or after byte
    [32 + 4*blob_count], and two different non-zero entries are at least
    [segment_size] bytes apart. *)
Theorem segments_are_disjoint (e1 e2 blob_count segment_size : Z)
    (p1 p2 : Z) :
  0 <= segment_size -> 1 <= e1 -> e1 < e2 ->
  locate e1 blob_count segment_size = Some p1 ->
  locate e2 blob_count segment_size = Some p2 ->
  HEADER_LENGTH + 4 * blob_count <= p1 /\ p1 + segment_size <= p2.
Proof.
  intros Hss H1 H12. unfold locate, HEADER_LENGTH.
  destruct (Z.eqb_spec e1 0); [lia |]. destruct (Z.eqb_spec e2 0); [lia |].
  intros E1 E2.
  assert (p1 = 32 + blob_count * 4 + (e1 - 1) * segment_size) by congruence.
  assert (p2 = 32 + blob_count * 4 + (e2 - 1) * segment_size) by congruence.
  split; nia.
Qed.

Lemma segments_are_disjoint_witness :
  HEADER_LENGTH + 4 * 1024 <= 4128 /\ 4128 + 4096 <= 12320.
Proof.
  refine (segments_are_disjoint 1 3 1024 4096 4128 12320 _ _ _ eq_refl eq_refl);
    lia.
Defined.


(** * Further properties of the palette sections *)

Lemma unpack_BE_H_len (b : bytes) :
  len b = 2 -> exists v, unpack_BE_H b = Ok v.
Proof.
  unfold len. destruct b as [| b0 [| b1 [| b2 b]]]; simpl length; try lia.
  intros _. eexists. reflexivity.
Qed.

Lemma read_entry_step (data : bytes) (es es' : list entry) (pos pos' : Z) :
  0 <= pos ->
  read_entry data (es, pos) = Ok (es', pos') ->
  exists e,
    es' = es ++ [e] /\
    0 <= id e < 256 /\ 0 <= count e < 65536 /\
    pos + 5 <= pos' <= len data.
Proof.
  intros Hpos. unfold read_entry.
  destruct (index data pos) as [iid | e] eqn:I; cbn [bind]; [| discriminate].
  destruct (unpack_BE_H _) as [sl | e] eqn:SL; cbn [bind]; [| discriminate].
  destruct (decode_utf8 _) as [nm | e]; cbn [bind]; [| discriminate].
  destruct (unpack_BE_H (slice data (pos + 1 + 2 + sl) _)) as [cnt | e] eqn:C;
    cbn [bind]; [| discriminate].
  intros [= <- <-]. eexists. split; [reflexivity |]. cbn [id count].
  apply index_Ok_range in I as [_ Hid].
  apply unpack_BE_H_Ok in SL as [_ Hsl].
  apply unpack_BE_H_Ok in C as [Hlen Hcnt].
  rewrite len_slice in Hlen by lia. lia.
Qed.

(** X4: a palette table that parses has exactly [entry_count] entries,
    each with an id in 0..255 and a count in 0..65535; every entry takes at
    least 5 bytes, and the cursor after the table is still inside the
    buffer. *)
Theorem read_entries_table (data : bytes) (entry_count pos : Z)
    (es : list entry) (pos' : Z) :
  0 <= pos ->
  read_entries data entry_count pos = Ok (es, pos') ->
  len es = Z.max 0 entry_count /\
  Forall (fun e => 0 <= id e < 256 /\ 0 <= count e < 65536) es /\
  pos + 5 * len es <= pos' /\
  (0 < entry_count -> pos' <= len data).
Proof.
  intros Hpos H. unfold read_entries, range_loop in H.
  apply (for_range_ind
           (fun i (st : list entry * Z) =>
              0 <= i /\ len (fst st) = i /\
              Forall (fun e => 0 <= id e < 256 /\ 0 <= count e < 65536)
                (fst st) /\
              pos + 5 * i <= snd st /\
              (0 < i -> snd st <= len data))) in H.
  - cbn [fst snd] in H. destruct H as (_ & Hlen & Hall & Hlo & Hhi).
    rewrite Z.add_0_l in Hlen, Hlo, Hhi.
    assert (Z.of_nat (Z.to_nat entry_count) = Z.max 0 entry_count) as Hn
      by lia.
    rewrite Hn in Hlen, Hlo, Hhi. rewrite Hlen.
    split; [reflexivity |]. split; [exact Hall |]. split; [exact Hlo |].
    intros Hec. apply Hhi. lia.
  - intros i [es0 p0] [es1 p1] (Hi & Hlen & Hall & Hlo & Hhi) E.
    cbn [fst snd] in *.
    apply read_entry_step in E as (e & -> & Hid & Hcnt & Hp); [| lia].
    split; [lia |]. split; [rewrite len_app, Hlen; reflexivity |].
    split; [apply Forall_app; split; [exact Hall | constructor; auto] |].
    split; lia.
  - cbn [fst snd]. split; [lia |]. split; [reflexivity |].
    split; [constructor |]. split; lia.
Qed.

Lemma read_entries_table_witness :
  len [{| id := 0; name := [69; 109; 112; 116; 121]; count := 0 |};
       {| id := 7; name := [87; 97; 116; 101; 114]; count := 1 |}]
  = Z.max 0 2 /\
  Forall (fun e => 0 <= id e < 256 /\ 0 <= count e < 65536)
    [{| id := 0; name := [69; 109; 112; 116; 121]; count := 0 |};
     {| id := 7; name := [87; 97; 116; 101; 114]; count := 1 |}] /\
  3 + 5 * len [{| id := 0; name := [69; 109; 112; 116; 121]; count := 0 |};
               {| id := 7; name := [87; 97; 116; 101; 114]; count := 1 |}]
    <= 23 /\
  (0 < 2 -> 23 <= len water_section).
Proof.
  refine (read_entries_table water_section 2 3 _ 23 _ _).
  - lia.
  - vm_compute. reflexivity.
Defined.

Lemma length_zrange (n : nat) : forall i, length (zrange i n) = n.
Proof. induction n as [| n IH]; intros i; simpl; [| rewrite IH]; reflexivity. Qed.

Lemma zrange_snoc (n : nat) :
  forall i, zrange i (S n) = zrange i n ++ [i + Z.of_nat n].
Proof.
  induction n as [| n IH]; intros i.
  - cbn [zrange app]. rewrite Z.add_0_r. reflexivity.
  - change (zrange i (S (S n))) with (i :: zrange (i + 1) (S n)).
    rewrite IH. cbn [zrange app]. do 3 f_equal. lia.
Qed.

Lemma zrange_bounds (n : nat) :
  forall i j, In j (zrange i n) -> i <= j < i + Z.of_nat n.
Proof.
  induction n as [| n IH]; intros i j; cbn [zrange In]; [tauto |].
  intros [<- | H]; [lia |]. apply IH in H. lia.
Qed.

Lemma firstn_snoc_cap {A} (k : nat) (l : list A) (a : A) :
  firstn k (l ++ [a])
  = if (length (firstn k l) <? k)%nat then firstn k l ++ [a] else firstn k l.
Proof.
  rewrite firstn_app, length_firstn.
  destruct (Nat.ltb_spec (Nat.min k (length l)) k) as [H | H].
  - destruct (k - length l)%nat as [| m] eqn:E; [lia |]. cbn [firstn].
    rewrite firstn_nil. reflexivity.
  - replace (k - length l)%nat with 0%nat by lia. cbn [firstn].
    apply app_nil_r.
Qed.

Lemma voxel_coordinates (i : Z) :
  0 <= i ->
  Z.land i 31 = i mod 32 /\
  Z.land (Z.shiftr i 5) 31 = (i / 32) mod 32 /\
  Z.land (Z.shiftr i 10) 31 = (i / 1024) mod 32.
Proof.
  intros Hi. change 31 with (Z.ones 5). rewrite !Z.land_ones by lia.
  rewrite !Z.shiftr_div_pow2 by lia. repeat split.
Qed.

Lemma nonzero_voxels_snoc (nibble_of : Z -> result Z) (n : nat) :
  nonzero_voxels nibble_of (S n)
  = nonzero_voxels nibble_of n
    ++ (if negb (nibble_value nibble_of (Z.of_nat n) =? 0)
        then [Z.of_nat n] else []).
Proof.
  unfold nonzero_voxels. rewrite zrange_snoc, filter_app, Z.add_0_l.
  cbn [filter]. destruct (negb _); reflexivity.
Qed.

Lemma voxel_loop_spec (nibble_of : Z -> result Z) (n : nat)
    (count : Z) (positions : list sample) :
  for_range n 0 (voxel_body nibble_of) (0, []) = Ok (count, positions) ->
  count = len (nonzero_voxels nibble_of n) /\
  positions
  = firstn 20 (map (voxel_sample nibble_of) (nonzero_voxels nibble_of n)) /\
  forall i, 0 <= i < Z.of_nat n -> exists v, nibble_of i = Ok v.
Proof.
  revert count positions. induction n as [| n IH]; intros count positions.
  - cbn [for_range]. intros [= <- <-]. repeat split. intros i Hi. lia.
  - rewrite for_range_snoc.
    destruct (for_range n 0 (voxel_body nibble_of) (0, [])) as [[c ps] | e];
      cbn [bind]; [| discriminate].
    destruct (IH c ps eq_refl) as (-> & -> & Hok). rewrite Z.add_0_l.
    unfold voxel_body.
    destruct (nibble_of (Z.of_nat n)) as [v | e] eqn:E; cbn [bind];
      [| discriminate].
    assert (nibble_value nibble_of (Z.of_nat n) = v) as Hv
      by (unfold nibble_value; rewrite E; reflexivity).
    assert (forall i, 0 <= i < Z.of_nat (S n) -> exists w, nibble_of i = Ok w)
      as Hok'.
    { intros i Hi. destruct (Z.eq_dec i (Z.of_nat n)) as [-> | Hne];
        [eauto | apply Hok; lia]. }
    rewrite nonzero_voxels_snoc, Hv.
    destruct (negb (v =? 0)).
    + rewrite map_app. cbn [map]. rewrite firstn_snoc_cap.
      unfold len at 1.
      assert ((Z.of_nat
                 (length
                    (firstn 20
                       (map (voxel_sample nibble_of)
                          (nonzero_voxels nibble_of n)))) <? 20)
              = (length
                   (firstn 20
                      (map (voxel_sample nibble_of)
                         (nonzero_voxels nibble_of n))) <? 20)%nat) as ->.
      { destruct (Nat.ltb_spec
                    (length
                       (firstn 20
                          (map (voxel_sample nibble_of)
                             (nonzero_voxels nibble_of n)))) 20);
          [apply Z.ltb_lt | apply Z.ltb_ge]; lia. }
      destruct (voxel_coordinates (Z.of_nat n) ltac:(lia)) as (-> & -> & ->).
      assert ({| s_index := Z.of_nat n; s_x := Z.of_nat n mod 32;
                 s_y := (Z.of_nat n / 1024) mod 32;
                 s_z := (Z.of_nat n / 32) mod 32; value := v |}
              = voxel_sample nibble_of (Z.of_nat n)) as ->
        by (unfold voxel_sample; rewrite Hv; reflexivity).
      destruct (_ <? _)%nat; intros [= <- <-];
        (split; [rewrite len_app; reflexivity |]); split;
        solve [reflexivity | exact Hok'].
    + rewrite app_nil_r. intros [= <- <-].
      split; [reflexivity |]. split; [reflexivity | exact Hok'].
Qed.

(** X5: either voxel loop of [analyze_fluid_section] counts the voxels
    whose nibble is not zero and reports the first 20 of them, in voxel
    order, each with its index, its coordinates ([index = y*1024 + z*32 +
    x]) and its nibble; it returns only if every voxel could be read. *)
Theorem voxel_loop_counts (nibble_of : Z -> result Z) (n : Z)
    (count : Z) (positions : list sample) :
  range_loop n (voxel_body nibble_of) (0, []) = Ok (count, positions) ->
  count = len (nonzero_voxels nibble_of (Z.to_nat n)) /\
  0 <= count <= Z.max 0 n /\
  positions
  = firstn 20 (map (voxel_sample nibble_of)
                 (nonzero_voxels nibble_of (Z.to_nat n))) /\
  len positions = Z.min count 20 /\
  forall i, 0 <= i < n -> exists v, nibble_of i = Ok v.
Proof.
  unfold range_loop. intros H.
  apply voxel_loop_spec in H as (-> & -> & Hok).
  split; [reflexivity |].
  assert (len (nonzero_voxels nibble_of (Z.to_nat n)) <= Z.max 0 n) as Hle.
  { unfold nonzero_voxels, len.
    pose proof (filter_length_le
                  (fun i => negb (nibble_value nibble_of i =? 0))
                  (zrange 0 (Z.to_nat n))) as Hf.
    rewrite length_zrange in Hf. lia. }
  split; [split; [apply len_nonneg | exact Hle] |].
  split; [reflexivity |]. split.
  - unfold len. rewrite length_firstn, length_map. lia.
  - intros i Hi. apply Hok. lia.
Qed.

Lemma voxel_loop_counts_witness :
  2 = len (nonzero_voxels (level_nibble [B 0x30; B 0x05]) (Z.to_nat 4)) /\
  0 <= 2 <= Z.max 0 4 /\
  [{| s_index := 1; s_x := 1; s_y := 0; s_z := 0; value := 3 |};
   {| s_index := 2; s_x := 2; s_y := 0; s_z := 0; value := 5 |}]
  = firstn 20 (map (voxel_sample (level_nibble [B 0x30; B 0x05]))
                 (nonzero_voxels (level_nibble [B 0x30; B 0x05])
                    (Z.to_nat 4))) /\
  len [{| s_index := 1; s_x := 1; s_y := 0; s_z := 0; value := 3 |};
       {| s_index := 2; s_x := 2; s_y := 0; s_z := 0; value := 5 |}]
  = Z.min 2 20 /\
  forall i, 0 <= i < 4 -> exists v, level_nibble [B 0x30; B 0x05] i = Ok v.
Proof.
  exact (voxel_loop_counts (level_nibble [B 0x30; B 0x05]) 4 2
           [{| s_index := 1; s_x := 1; s_y := 0; s_z := 0; value := 3 |};
            {| s_index := 2; s_x := 2; s_y := 0; s_z := 0; value := 5 |}]
           eq_refl).
Defined.

(** The steps of a successful run of [analyze_fluid_section] on a section
    that is not EMPTY. *)
Lemma fluid_run_inv (data : bytes) (ver : option Z) (r : fluid_result)
    (pos : Z) :
  analyze_fluid_section {| Data := Some data; Version := ver |} = Ok (r, pos) ->
  exists pt,
    index data 0 = Ok pt /\ palette_type r = Some pt /\
    ((pt = 0 /\ pos = 2 /\ 2 <= len data /\
      entry_count r = None /\ entries r = None /\
      fluid_block_count r = None /\ sample_positions r = None /\
      non_zero_levels r = None /\ sample_levels r = None) \/
     (pt <> 0 /\
      exists ec es p p1 hb,
        unpack_BE_H (slice data 1 3) = Ok ec /\
        read_entries data ec 3 = Ok (es, p) /\
        entry_count r = Some ec /\ entries r = Some es /\
        voxel_stage data pt p (fluid_block_count r) (sample_positions r) p1 /\
        index data p1 = Ok hb /\
        has_levels r = Some (negb (hb =? 0)) /\
        level_stage data hb p1 (non_zero_levels r) (sample_levels r) pos)).
Proof.
  unfold analyze_fluid_section. cbn [Data]. cbv zeta.
  destruct (index data 0) as [pt | e] eqn:I0; cbn [bind]; [| discriminate].
  destruct (Z.eqb_spec pt 0) as [-> | Hpt].
  - destruct (index data (0 + 1)) as [b | e] eqn:I1; cbn [bind];
      [| discriminate].
    intros [= <- <-]. exists 0.
    cbn [palette_type entry_count entries fluid_block_count sample_positions
           has_levels non_zero_levels sample_levels].
    split; [reflexivity |].
    split; [reflexivity |]. left.
    apply index_Ok_range in I1 as [H1 _]. repeat split. lia.
  - change (0 + 1 + 2) with 3. change (0 + 1) with 1.
    destruct (unpack_BE_H (slice data 1 3)) as [ec | e] eqn:U; cbn [bind];
      [| discriminate].
    change (1 + 2) with 3.
    destruct (read_entries data ec 3) as [[es p] | e] eqn:RE; cbn [bind];
      [| discriminate].
    match goal with
    | |- bind ?m _ = _ -> _ => destruct m as [[[fbc sp] p1] | e] eqn:V
    end; cbn [bind]; [| discriminate].
    destruct (index data p1) as [hb | e] eqn:Ih; cbn [bind]; [| discriminate].
    match goal with
    | |- bind ?m _ = _ -> _ => destruct m as [[[nzl sl] p2] | e] eqn:L
    end; cbn [bind]; [| discriminate].
    intros [= <- <-]. exists pt.
    cbn [palette_type entry_count entries fluid_block_count sample_positions
           has_levels non_zero_levels sample_levels].
    split; [reflexivity |].
    split; [reflexivity |]. right.
    split; [exact Hpt |]. exists ec, es, p, p1, hb.
    split; [first [exact U | reflexivity] |].
    split; [first [exact RE | reflexivity] |].
    split; [reflexivity |]. split; [reflexivity |].
    split; [| split; [exact Ih |]; split; [reflexivity |]].
    + unfold voxel_stage. revert V.
      destruct (Z.eqb_spec pt 1) as [-> | H1].
      * destruct (range_loop 32768
                    (voxel_body (fluid_nibble (slice data p (p + 16384))))
                    (0, [])) as [[c ps] | e] eqn:R;
          cbn [bind]; [| discriminate].
        intros [= <- <- <-]. left.
        split; [reflexivity |]. split; [reflexivity |].
        exists c, ps. split; [first [exact R | reflexivity] |].
        split; reflexivity.
      * destruct (Z.eqb_spec pt 2) as [-> | H2]; intros [= <- <- <-].
        -- right. left. repeat split.
        -- right. right. repeat split; assumption.
    + unfold level_stage. revert L.
      destruct (Z.eqb_spec hb 0) as [-> | Hhb]; cbn [negb].
      * intros [= <- <- <-]. right. repeat split.
      * destruct (range_loop 32768
                    (voxel_body
                       (level_nibble
                          (slice data (p1 + 1) (p1 + 1 + 16384))))
                    (0, [])) as [[c ps] | e] eqn:R;
          cbn [bind]; [| discriminate].
        intros [= <- <- <-]. left.
        split; [exact Hhb |]. split; [reflexivity |].
        exists c, ps. split; [first [exact R | reflexivity] |].
        split; reflexivity.
Qed.

Lemma read_entries_end (data : bytes) (entry_count pos : Z)
    (es : list entry) (p : Z) :
  0 <= pos ->
  read_entries data entry_count pos = Ok (es, p) ->
  pos <= p /\ (p = pos \/ p <= len data).
Proof.
  intros Hpos H. unfold read_entries, range_loop in H.
  apply (for_range_inv
           (fun st : list entry * Z =>
              pos <= snd st /\ (snd st = pos \/ snd st <= len data))) in H;
    [exact H | | cbn [snd]; lia].
  intros _ [es0 p0] [es1 p1] [Hlo Hhi] E. cbn [snd] in *.
  apply read_entry_step in E as (_ & _ & _ & _ & Hp); lia.
Qed.

Lemma voxel_sample_in_section (nibble_of : Z -> result Z) (i : Z) :
  0 <= i < 32768 -> sample_in_section (voxel_sample nibble_of i).
Proof.
  intros Hi. unfold sample_in_section, voxel_sample.
  cbn [s_index s_x s_y s_z].
  assert (0 <= i / 1024 < 32) as Hy.
  { split; [apply Z.div_pos; lia | apply Z.div_lt_upper_bound; lia]. }
  rewrite (Z.mod_small (i / 1024)) by exact Hy.
  pose proof (Z.div_mod i 32 ltac:(lia)) as H32.
  pose proof (Z.mod_pos_bound i 32 ltac:(lia)) as Hx.
  pose proof (Z.div_mod (i / 32) 32 ltac:(lia)) as H1024.
  pose proof (Z.mod_pos_bound (i / 32) 32 ltac:(lia)) as Hz.
  rewrite Z.div_div in H1024 by lia. change (32 * 32) with 1024 in H1024.
  repeat split; lia.
Qed.

Lemma voxel_loop_in_section (nibble_of : Z -> result Z) (n : Z)
    (c : Z) (ps : list sample) :
  0 <= n <= 32768 ->
  range_loop n (voxel_body nibble_of) (0, []) = Ok (c, ps) ->
  0 <= c <= n /\ len ps = Z.min c 20 /\ Forall sample_in_section ps.
Proof.
  intros Hn H. unfold range_loop in H.
  apply voxel_loop_spec in H as (-> & -> & _).
  set (hits := nonzero_voxels nibble_of (Z.to_nat n)).
  assert (len hits <= n) as Hle.
  { unfold hits, nonzero_voxels, len.
    pose proof (filter_length_le
                  (fun i => negb (nibble_value nibble_of i =? 0))
                  (zrange 0 (Z.to_nat n))) as Hf.
    rewrite length_zrange in Hf. lia. }
  split; [split; [apply len_nonneg | exact Hle] |]. split.
  - unfold len. rewrite length_firstn, length_map. lia.
  - apply Forall_forall. intros s Hs.
    assert (In s (map (voxel_sample nibble_of) hits)) as Hin.
    { rewrite <- (firstn_skipn 20 (map (voxel_sample nibble_of) hits)).
      apply in_or_app. left. exact Hs. }
    apply in_map_iff in Hin as (i & <- & Hi).
    apply voxel_sample_in_section.
    unfold hits, nonzero_voxels in Hi. apply filter_In in Hi as [Hi _].
    apply zrange_bounds in Hi. lia.
Qed.

(** X6: in the result of a successful [analyze_fluid_section] both
    counters lie between 0 and 32768, each sample list has
    [min(count, 20)] elements, and every sample names a voxel of the
    32x32x32 section: [index = y*1024 + z*32 + x] with [x], [y], [z] in
    0..31. *)
Theorem fluid_samples_in_section (fluid_doc : doc) (r : fluid_result)
    (pos : Z) :
  analyze_fluid_section fluid_doc = Ok (r, pos) ->
  (forall c, fluid_block_count r = Some c -> 0 <= c <= 32768) /\
  (forall c, non_zero_levels r = Some c -> 0 <= c <= 32768) /\
  (forall c ps,
     fluid_block_count r = Some c -> sample_positions r = Some ps ->
     len ps = Z.min c 20 /\ Forall sample_in_section ps) /\
  (forall c ps,
     non_zero_levels r = Some c -> sample_levels r = Some ps ->
     len ps = Z.min c 20 /\ Forall sample_in_section ps).
Proof.
  destruct fluid_doc as [[data |] ver].
  2:{ cbn. intros [= <- _]. cbn. repeat split; discriminate. }
  intros H. apply fluid_run_inv in H as (pt & _ & _ & [Hempty | Hfull]).
  { destruct Hempty as (_ & _ & _ & _ & _ & -> & -> & -> & ->).
    repeat split; discriminate. }
  destruct Hfull as (_ & ec & es & p & p1 & hb & _ & RE & _ & _ & V & _ & _ & L).
  apply read_entries_end in RE as [Hp _]; [| lia].
  assert ((forall c, fluid_block_count r = Some c -> 0 <= c <= 32768) /\
          (forall c ps,
             fluid_block_count r = Some c -> sample_positions r = Some ps ->
             len ps = Z.min c 20 /\ Forall sample_in_section ps)) as [V1 V2].
  { destruct V as [(_ & _ & c & ps & R & -> & ->)
                  | [(_ & _ & -> & ->) | (_ & _ & _ & -> & ->)]].
    - apply voxel_loop_in_section in R as (Hc & Hl & Hs); [| lia].
      split; [intros c' [= <-]; exact Hc |].
      intros c' ps' [= <-] [= <-]. split; assumption.
    - split; [| discriminate]. intros c [= <-].
      pose proof (filter_length_le (fun b => negb (byte_val b =? 0))
                    (slice data p (p + 32768))) as Hf.
      pose proof (len_slice data p (p + 32768) ltac:(lia) ltac:(lia)) as Hl.
      unfold len in *. lia.
    - split; discriminate. }
  assert ((forall c, non_zero_levels r = Some c -> 0 <= c <= 32768) /\
          (forall c ps,
             non_zero_levels r = Some c -> sample_levels r = Some ps ->
             len ps = Z.min c 20 /\ Forall sample_in_section ps)) as [L1 L2].
  { destruct L as [(_ & _ & c & ps & R & -> & ->) | (_ & _ & -> & ->)].
    - apply voxel_loop_in_section in R as (Hc & Hl & Hs); [| lia].
      split; [intros c' [= <-]; exact Hc |].
      intros c' ps' [= <-] [= <-]. split; assumption.
    - split; discriminate. }
  split; [exact V1 |]. split; [exact L1 |]. split; assumption.
Qed.

Lemma fluid_samples_in_section_witness :
  exists r pos,
    analyze_fluid_section {| Data := Some water_section; Version := None |}
      = Ok (r, pos) /\
    (forall c ps,
       fluid_block_count r = Some c -> sample_positions r = Some ps ->
       len ps = Z.min c 20 /\ Forall sample_in_section ps).
Proof.
  destruct water_section_run as (r & tl & tl' & E & _).
  exists r, 32792. split; [exact E |].
  exact (proj1 (proj2 (proj2 (fluid_samples_in_section _ r _ E)))).
Defined.

Lemma level_loop_complete (level_data : bytes) (c : Z) (ps : list sample) :
  range_loop 32768 (voxel_body (level_nibble level_data)) (0, []) = Ok (c, ps) ->
  16384 <= len level_data.
Proof.
  unfold range_loop. intros H.
  apply voxel_loop_spec in H as (_ & _ & Hok).
  destruct (Hok 32767 ltac:(lia)) as [v Hv].
  unfold level_nibble in Hv. change (32767 mod 2 =? 0) with false in Hv.
  cbv iota in Hv. change (32767 / 2) with 16383 in Hv.
  destruct (index level_data 16383) as [b | e] eqn:I; [| discriminate].
  apply index_Ok_range in I. lia.
Qed.

(** X7: a successful section decode has read nothing beyond the buffer.
    [analyze_fluid_section] ends with the cursor at 2 on an EMPTY section;
    on any other it ends exactly behind the palette table, the voxel array
    of the palette type (16384 bytes for HALF_BYTE, 32768 for BYTE, none for
    SHORT or an unknown type, whose array it does not read), the hasLevels
    byte and, when hasLevels is set, the 16384 level bytes, and that cursor
    is at most the length of Data, so all of these were there in full.
    [analyze_block_section] ends between 1 and the length of Data. *)
Theorem section_cursor_in_buffer (d : doc) (data : bytes) :
  Data d = Some data ->
  (forall r pos,
     analyze_fluid_section d = Ok (r, pos) ->
     2 <= pos <= len data /\
     exists pt,
       palette_type r = Some pt /\ pt = byte_val (nth 0 data x00) /\
       (pt = 0 -> pos = 2) /\
       (pt <> 0 ->
          exists ec es p hl,
            entry_count r = Some ec /\ entries r = Some es /\
            read_entries data ec 3 = Ok (es, p) /\ 3 <= p /\
            p + voxel_array_bytes pt < len data /\
            hl = negb (byte_val (nth (Z.to_nat (p + voxel_array_bytes pt))
                                   data x00) =? 0) /\
            has_levels r = Some hl /\
            pos = p + voxel_array_bytes pt + 1
                  + (if hl then 16384 else 0))) /\
  (forall r pos, analyze_block_section d = Ok (r, pos) ->
                 1 <= pos <= len data).
Proof.
  destruct d as [dt ver]. cbn [Data]. intros ->. split.
  - intros r pos H.
    apply fluid_run_inv in H as (pt & I0 & Hpt & [Hempty | Hfull]).
    { destruct Hempty as (-> & -> & Hlen & _).
      split; [lia |]. exists 0. split; [exact Hpt |].
      apply index_Ok_nth in I0 as [_ I0].
      split; [exact I0 |]. split; [reflexivity | intros Hne; lia]. }
    destruct Hfull
      as (Hne & ec & es & p & p1 & hb & _ & RE & Hec & Hes & V & Ih & Hhl & L).
    pose proof RE as RE'.
    apply read_entries_end in RE' as [Hp _]; [| lia].
    assert (p1 = p + voxel_array_bytes pt) as Hp1.
    { unfold voxel_array_bytes.
      destruct V as [(-> & -> & _) | [(-> & -> & _) | (H1 & H2 & -> & _)]];
        [reflexivity | reflexivity |].
      destruct (Z.eqb_spec pt 1); [contradiction |].
      destruct (Z.eqb_spec pt 2); [contradiction |]. lia. }
    assert (0 <= voxel_array_bytes pt) as Hvb.
    { unfold voxel_array_bytes.
      destruct (pt =? 1); [lia |]. destruct (pt =? 2); lia. }
    apply index_Ok_nth in Ih as [Hr1 Hhb].
    assert (pos = p1 + 1 + (if negb (hb =? 0) then 16384 else 0)
            /\ pos <= len data) as [Hpos Hfit].
    { destruct L as [(Hhb0 & -> & c & ps & R & _) | (-> & -> & _)].
      - destruct (Z.eqb_spec hb 0) as [? | _]; [contradiction |].
        cbn [negb]. split; [reflexivity |].
        apply level_loop_complete in R. rewrite len_slice in R by lia. lia.
      - cbn [Z.eqb negb]. lia. }
    split; [destruct (negb (hb =? 0)); lia |].
    exists pt. split; [exact Hpt |].
    apply index_Ok_nth in I0 as [_ I0].
    split; [exact I0 |]. split; [intros H0; contradiction |].
    intros _. exists ec, es, p, (negb (hb =? 0)).
    split; [exact Hec |]. split; [exact Hes |]. split; [exact RE |].
    split; [exact Hp |]. split; [lia |].
    split; [rewrite <- Hp1, <- Hhb; reflexivity |].
    split; [exact Hhl |]. rewrite <- Hp1. exact Hpos.
  - intros r pos. unfold analyze_block_section. cbn [Data]. cbv zeta.
    destruct (6 <=? Version_get _).
    + destruct (unpack_BE_I _) as [m | e]; cbn [bind]; [| discriminate].
      destruct (index data (0 + 4)) as [pt | e] eqn:I; cbn [bind];
        [| discriminate].
      apply index_Ok_range in I as [Hi _].
      destruct (pt =? 0); [intros [= _ <-]; lia |].
      destruct (unpack_BE_H _) as [ec | e] eqn:U; cbn [bind];
        [| discriminate].
      apply unpack_BE_H_Ok in U as [Hl _]. rewrite len_slice in Hl by lia.
      destruct (read_entries data ec _) as [[es p] | e] eqn:RE; cbn [bind];
        [| discriminate].
      apply read_entries_end in RE; [| lia]. intros [= _ <-]. lia.
    + cbn [bind].
      destruct (index data 0) as [pt | e] eqn:I; cbn [bind]; [| discriminate].
      apply index_Ok_range in I as [Hi _].
      destruct (pt =? 0); [intros [= _ <-]; lia |].
      destruct (unpack_BE_H _) as [ec | e] eqn:U; cbn [bind];
        [| discriminate].
      apply unpack_BE_H_Ok in U as [Hl _]. rewrite len_slice in Hl by lia.
      destruct (read_entries data ec _) as [[es p] | e] eqn:RE; cbn [bind];
        [| discriminate].
      apply read_entries_end in RE; [| lia]. intros [= _ <-]. lia.
Qed.

Lemma section_cursor_in_buffer_witness :
  exists r pos,
    analyze_fluid_section {| Data := Some water_section; Version := None |}
      = Ok (r, pos) /\
    2 <= pos <= len water_section /\
    exists pt,
      palette_type r = Some pt /\ pt = byte_val (nth 0 water_section x00) /\
      (pt = 0 -> pos = 2) /\
      (pt <> 0 ->
         exists ec es p hl,
           entry_count r = Some ec /\ entries r = Some es /\
           read_entries water_section ec 3 = Ok (es, p) /\ 3 <= p /\
           p + voxel_array_bytes pt < len water_section /\
           hl = negb (byte_val (nth (Z.to_nat (p + voxel_array_bytes pt))
                                  water_section x00) =? 0) /\
           has_levels r = Some hl /\
           pos = p + voxel_array_bytes pt + 1 + (if hl then 16384 else 0)).
Proof.
  destruct water_section_run as (r & tl & tl' & E & _).
  exists r, 32792. split; [exact E |].
  exact (proj1 (section_cursor_in_buffer
                  {| Data := Some water_section; Version := None |}
                  water_section eq_refl) r 32792 E).
Defined.

(** X8: the two section decoders agree on the palette table: when
    [analyze_fluid_section] succeeds on a document whose Version is below 6
    (or absent), [analyze_block_section] succeeds on it too, with the same
    palette type, entry count and entries, having read a prefix of what the
    fluid decoder read. *)
Theorem block_agrees_with_fluid (d : doc) (r : fluid_result) (pos : Z) :
  Version_get d < 6 ->
  analyze_fluid_section d = Ok (r, pos) ->
  exists rb posb,
    analyze_block_section d = Ok (rb, posb) /\
    b_palette_type rb = palette_type r /\
    b_entry_count rb = entry_count r /\
    b_entries rb = entries r /\
    posb <= pos.
Proof.
  intros Hv H. apply Z.leb_gt in Hv.
  destruct d as [[data |] ver].
  2:{ cbn in H. injection H as <- <-. eexists. eexists.
      split; [reflexivity |]. cbn. repeat split. lia. }
  apply fluid_run_inv in H as (pt & I0 & Hpt & [Hempty | Hfull]).
  - destruct Hempty as (-> & -> & _ & -> & -> & _).
    unfold analyze_block_section. cbn [Data]. cbv zeta. rewrite Hv.
    cbn [bind]. rewrite I0. cbn [bind]. change (0 =? 0) with true. cbv iota.
    eexists. eexists. split; [reflexivity |]. cbn.
    rewrite Hpt. repeat split. lia.
  - destruct Hfull
      as (Hne & ec & es & p & p1 & hb & U & RE & -> & -> & V & Ih & _ & L).
    unfold analyze_block_section. cbn [Data]. cbv zeta. rewrite Hv.
    cbn [bind]. rewrite I0. cbn [bind].
    destruct (Z.eqb_spec pt 0) as [? | _]; [contradiction |].
    change (0 + 1 + 2) with 3. change (0 + 1) with 1. rewrite U. cbn [bind].
    change (1 + 2) with 3. rewrite RE. cbn [bind].
    eexists. eexists. split; [reflexivity |]. cbn. rewrite Hpt.
    repeat split.
    assert (p <= p1) as Hpp1.
    { destruct V as [(_ & -> & _) | [(_ & -> & _) | (_ & _ & -> & _)]]; lia. }
    destruct L as [(_ & -> & _) | (_ & -> & _)]; lia.
Qed.

Lemma block_agrees_with_fluid_witness :
  exists rb posb,
    analyze_block_section
      {| Data := Some [B 3; B 0; B 1; B 0; B 0; B 1; B 65; B 0; B 3; B 0];
         Version := Some 5 |} = Ok (rb, posb) /\
    b_palette_type rb = Some 3 /\
    b_entry_count rb = Some 1 /\
    b_entries rb = Some [{| id := 0; name := [65]; count := 3 |}] /\
    posb <= 10.
Proof.
  refine (block_agrees_with_fluid
            {| Data := Some [B 3; B 0; B 1; B 0; B 0; B 1; B 65; B 0; B 3; B 0];
               Version := Some 5 |}
            {| status_no_data := false; palette_type := Some 3;
               palette_type_name := Some SHORT;
               entry_count := Some 1;
               entries := Some [{| id := 0; name := [65]; count := 3 |}];
               fluid_block_count := None; sample_positions := None;
               has_levels := Some false;
               non_zero_levels := None; sample_levels := None |}
            10 _ eq_refl).
  vm_compute. reflexivity.
Defined.

(** * Further properties of the heightmap *)

Lemma fold_min_spec (l : list Z) :
  forall a,
    (fold_left Z.min l a = a \/ In (fold_left Z.min l a) l) /\
    fold_left Z.min l a <= a /\
    forall h, In h l -> fold_left Z.min l a <= h.
Proof.
  induction l as [| b l IH]; intros a; cbn [fold_left In].
  - split; [left; reflexivity |]. split; [lia | tauto].
  - destruct (IH (Z.min a b)) as (Hin & Hle & Hall).
    split; [| split].
    + destruct Hin as [-> | Hin]; [| right; right; exact Hin].
      destruct (Z.min_spec a b) as [[_ ->] | [_ ->]]; [left | right; left];
        reflexivity.
    + lia.
    + intros h [<- | Hh]; [lia | apply Hall; exact Hh].
Qed.

Lemma fold_max_spec (l : list Z) :
  forall a,
    (fold_left Z.max l a = a \/ In (fold_left Z.max l a) l) /\
    a <= fold_left Z.max l a /\
    forall h, In h l -> h <= fold_left Z.max l a.
Proof.
  induction l as [| b l IH]; intros a; cbn [fold_left In].
  - split; [left; reflexivity |]. split; [lia | tauto].
  - destruct (IH (Z.max a b)) as (Hin & Hle & Hall).
    split; [| split].
    + destruct Hin as [-> | Hin]; [| right; right; exact Hin].
      destruct (Z.max_spec a b) as [[_ ->] | [_ ->]]; [right; left | left];
        reflexivity.
    + lia.
    + intros h [<- | Hh]; [lia | apply Hall; exact Hh].
Qed.

Lemma le_int2_range (b : bytes) : len b = 2 -> 0 <= le_int b < 65536.
Proof.
  unfold len. destruct b as [| b0 [| b1 [| b2 b]]]; simpl length; try lia.
  intros _. unfold le_int. cbn [bitstream].
  pose proof (byte_val_range b0). pose proof (byte_val_range b1). lia.
Qed.

Lemma signed16_range (u : Z) :
  0 <= u < 65536 -> -32768 <= signed16 u <= 32767.
Proof. intros Hu. unfold signed16. destruct (Z.ltb_spec u 32768); lia. Qed.

(** The summary fields of a successful run. *)
Lemma heightmap_summary (block_chunk_doc : doc) (data : bytes)
    (l : heightmap_locals) :
  Data block_chunk_doc = Some data ->
  analyze_heightmap_locals block_chunk_doc = Ok l ->
  height_min (l_result l) = min_or_None (l_heights_palette l) /\
  height_max (l_result l) = max_or_None (l_heights_palette l) /\
  height_palette_values (l_result l) = Some (firstn 20 (l_heights_palette l)) /\
  h_version (l_result l) = Version block_chunk_doc /\
  needs_physics (l_result l)
    = Some (negb (byte_val (nth 0 data x00) =? 0)).
Proof.
  intros HD H. unfold analyze_heightmap_locals in H. rewrite HD in H.
  cbv zeta in H.
  destruct (index data 0) as [np | e] eqn:I; cbn [bind] in H; [| discriminate].
  apply index_Ok_nth in I as [_ ->]. change (Z.to_nat 0) with 0%nat in H.
  destruct (unpack_LE_H _) as [pc | e]; cbn [bind] in H; [| discriminate].
  destruct (range_loop pc _ _) as [[hp pos] | e]; cbn [bind] in H;
    [| discriminate].
  destruct (unpack_LE_I _) as [bl | e]; cbn [bind] in H; [| discriminate].
  destruct (range_loop (Z.min 64 1024) _ _) as [sh | e]; cbn [bind] in H;
    [| discriminate].
  injection H as <-. cbn. repeat split.
Qed.

(** X9: the palette summary of a successful [analyze_heightmap]: the
    palette has [palette_count] heights, each in -32768..32767; for an
    empty palette height_min and height_max are both absent; for a
    non-empty one both are present, are members of the palette and bound
    all of it; height_palette_values is the first [min(20, count)]
    heights. *)
Theorem heightmap_palette_summary (block_chunk_doc : doc) (data : bytes)
    (l : heightmap_locals) :
  Data block_chunk_doc = Some data ->
  analyze_heightmap_locals block_chunk_doc = Ok l ->
  (0 <= l_palette_count l /\
   len (l_heights_palette l) = l_palette_count l /\
   Forall (fun h => -32768 <= h <= 32767) (l_heights_palette l)) /\
  (l_palette_count l = 0 <->
     height_min (l_result l) = None /\ height_max (l_result l) = None) /\
  (l_palette_count l = 0 <->
     height_min (l_result l) = None \/ height_max (l_result l) = None) /\
  (0 < l_palette_count l ->
     exists lo hi,
       height_min (l_result l) = Some lo /\
       height_max (l_result l) = Some hi /\
       In lo (l_heights_palette l) /\ In hi (l_heights_palette l) /\
       forall h, In h (l_heights_palette l) -> lo <= h <= hi) /\
  (exists shown,
     height_palette_values (l_result l) = Some shown /\
     shown = firstn 20 (l_heights_palette l) /\
     len shown = Z.min 20 (l_palette_count l)).
Proof.
  intros HD H.
  destruct (heightmap_summary block_chunk_doc data l HD H)
    as (Hmin & Hmax & Hvals & _).
  destruct (heightmap_run block_chunk_doc data l HD H)
    as (Hpc & Hinv & _).
  destruct Hinv as (Hnn & Hlen & _ & Hfit & Hnth). cbn [fst snd] in *.
  rewrite <- Hpc in Hlen, Hfit, Hnth, Hnn.
  set (hp := l_heights_palette l) in *.
  split; [| split; [| split; [| split]]].
  - split; [exact Hnn |]. split; [exact Hlen |].
    apply Forall_forall. intros h Hh. apply In_nth_error in Hh as [k Hk].
    assert (k < length hp)%nat as Hlt by (apply nth_error_Some; congruence).
    unfold len in Hlen.
    specialize (Hnth (Z.of_nat k) ltac:(lia)). rewrite Nat2Z.id in Hnth.
    assert (h = stored_height data (Z.of_nat k)) as -> by congruence.
    unfold stored_height. apply signed16_range, le_int2_range.
    rewrite len_slice by lia. lia.
  - rewrite Hmin, Hmax. unfold len in Hlen.
    destruct hp as [| a hp']; cbn [min_or_None max_or_None length] in *.
    + split; [intros _; split; reflexivity | intros _; lia].
    + split; [intros H0; lia | intros [H0 _]; discriminate].
  - rewrite Hmin, Hmax. unfold len in Hlen.
    destruct hp as [| a hp']; cbn [min_or_None max_or_None length] in *.
    + split; [intros _; left; reflexivity | intros _; lia].
    + split; [intros H0; lia | intros [H0 | H0]; discriminate].
  - rewrite Hmin, Hmax. intros Hpos. unfold len in Hlen.
    destruct hp as [| a hp']; cbn [min_or_None max_or_None length] in *;
      [lia |].
    exists (fold_left Z.min hp' a), (fold_left Z.max hp' a).
    destruct (fold_min_spec hp' a) as (Hin1 & Hle1 & Hall1).
    destruct (fold_max_spec hp' a) as (Hin2 & Hle2 & Hall2).
    split; [reflexivity |]. split; [reflexivity |].
    split; [destruct Hin1 as [-> | ?]; [left; reflexivity | right; assumption] |].
    split; [destruct Hin2 as [-> | ?]; [left; reflexivity | right; assumption] |].
    intros h [<- | Hh]; [lia |].
    split; [apply Hall1 | apply Hall2]; exact Hh.
  - eexists. split; [exact Hvals |]. split; [reflexivity |].
    unfold len in *. rewrite length_firstn. lia.
Qed.

Lemma heightmap_palette_summary_witness :
  exists l,
    analyze_heightmap_locals
      {| Data := Some [B 1; B 4; B 0; B 192; B 255; B 0; B 0; B 64; B 0;
                       B 128; B 0; B 3; B 0; B 0; B 0; B 1; B 0; B 255];
         Version := Some 3 |} = Ok l /\
    exists lo hi,
      height_min (l_result l) = Some lo /\
      height_max (l_result l) = Some hi /\
      In lo (l_heights_palette l) /\ In hi (l_heights_palette l) /\
      forall h, In h (l_heights_palette l) -> lo <= h <= hi.
Proof.
  eexists. split; [vm_compute; reflexivity |].
  refine (proj1 (proj2 (proj2 (proj2
            (heightmap_palette_summary
               {| Data := Some [B 1; B 4; B 0; B 192; B 255; B 0; B 0;
                                B 64; B 0; B 128; B 0; B 3; B 0; B 0;
                                B 0; B 1; B 0; B 255];
                  Version := Some 3 |}
               [B 1; B 4; B 0; B 192; B 255; B 0; B 0; B 64; B 0;
                B 128; B 0; B 3; B 0; B 0; B 0; B 1; B 0; B 255]
               _ eq_refl eq_refl)))) _).
  vm_compute. reflexivity.
Defined.

Lemma bitstream_zero_padding (bf : bytes) (k : nat) :
  bitstream (bf ++ repeat x00 k) = bitstream bf.
Proof.
  induction bf as [| b bf IH]; cbn [app bitstream].
  - induction k as [| k IHk]; cbn [repeat bitstream]; [reflexivity |].
    rewrite IHk. reflexivity.
  - rewrite IH. reflexivity.
Qed.

Lemma field10_beyond (bf : bytes) (col_idx : Z) :
  0 <= col_idx -> 8 * len bf <= 10 * col_idx -> field10 bf col_idx = 0.
Proof.
  intros Hc Hlen. unfold field10. apply Z.bits_inj'. intros j Hj.
  rewrite Z.bits_0. change 1024 with (2 ^ 10).
  destruct (Z.lt_ge_cases j 10) as [Hlt | Hge].
  - rewrite Z.mod_pow2_bits_low by lia. rewrite Z.shiftr_spec by lia.
    rewrite bitstream_testbit by lia.
    destruct (Z.ltb_spec ((j + col_idx * 10) / 8) (len bf)) as [H | H];
      [| reflexivity].
    assert (len bf <= (j + col_idx * 10) / 8)
      by (apply Z.div_le_lower_bound; lia).
    lia.
  - apply Z.mod_pow2_bits_high. lia.
Qed.

(** X10: a bitfield that is too short is read as if it were padded with
    zero bytes: appending zero bytes changes no column, and a column whose
    field starts at or behind the end of the bitfield has palette index 0
    (and the height of palette entry 0, or -1 for an empty palette). *)
Theorem short_bitfield_reads_zero (heights_palette : list Z)
    (bitfield_data : bytes) (col_idx : Z) (acc : list height_sample) :
  0 <= col_idx ->
  (forall k,
     column_body heights_palette (bitfield_data ++ repeat x00 k) col_idx acc
     = column_body heights_palette bitfield_data col_idx acc) /\
  (8 * len bitfield_data <= 10 * col_idx ->
   column_body heights_palette bitfield_data col_idx acc
   = Ok (acc ++ [{| x := col_idx mod 32; z := col_idx / 32;
                    palette_idx := 0;
                    height := nth 0 heights_palette (-1) |}])).
Proof.
  intros Hc. split.
  - intros k. rewrite !column_body_eq by exact Hc.
    unfold column_sample, field10. rewrite bitstream_zero_padding.
    reflexivity.
  - intros Hlen. rewrite column_body_eq by exact Hc.
    unfold column_sample. rewrite field10_beyond by assumption.
    reflexivity.
Qed.

Lemma short_bitfield_reads_zero_witness :
  column_body [-64; 0; 64; 128] [B 255; B 255] 2 []
  = Ok ([] ++ [{| x := 2 mod 32; z := 2 / 32; palette_idx := 0;
                  height := nth 0 [-64; 0; 64; 128] (-1) |}]).
Proof.
  refine (proj2 (short_bitfield_reads_zero [-64; 0; 64; 128] [B 255; B 255]
                   2 [] _) _).
  - lia.
  - vm_compute. discriminate.
Defined.

(** X11: every height sample of a successful [analyze_heightmap] is sound:
    for column [c] below 64, [x = c mod 32], [z = c / 32] (so [z] is 0 or
    1), the palette index is below 1024, and the height is the palette
    entry at that index when the index is below the palette count, and the
    sentinel -1 otherwise; the result lists exactly the first 20. *)
Theorem heightmap_samples_sound (block_chunk_doc : doc) (data : bytes)
    (l : heightmap_locals) :
  Data block_chunk_doc = Some data ->
  analyze_heightmap_locals block_chunk_doc = Ok l ->
  (forall c s,
     0 <= c < 64 ->
     nth_error (l_sample_heights l) (Z.to_nat c) = Some s ->
     x s = c mod 32 /\ z s = c / 32 /\ 0 <= z s <= 1 /\
     0 <= palette_idx s < 1024 /\
     (palette_idx s < l_palette_count l ->
        nth_error (l_heights_palette l) (Z.to_nat (palette_idx s))
        = Some (height s)) /\
     (l_palette_count l <= palette_idx s -> height s = -1)) /\
  (exists shown,
     sample_heights (l_result l) = Some shown /\
     shown = firstn 20 (l_sample_heights l) /\
     len shown = 20).
Proof.
  intros HD H.
  destruct (heightmap_run block_chunk_doc data l HD H)
    as (Hpc & Hinv & _ & _ & _ & _ & Hlen & Hnth & Hshown & _).
  destruct Hinv as (_ & Hlenp & _). cbn [fst] in Hlenp.
  rewrite <- Hpc in Hlenp. split.
  - intros c s Hc Hs. rewrite Hnth in Hs by exact Hc.
    assert (s = column_sample (l_heights_palette l) (l_bitfield_data l) c)
      as -> by congruence.
    unfold column_sample. cbn [x z palette_idx height].
    pose proof (field10_range (l_bitfield_data l) c) as Hv.
    set (v := field10 (l_bitfield_data l) c) in *.
    split; [reflexivity |]. split; [reflexivity |].
    split; [split; [apply Z.div_pos; lia
                   | apply Z.lt_succ_r, Z.div_lt_upper_bound; lia] |].
    split; [exact Hv |]. unfold palette_height, len in *. split.
    + intros Hlt. apply nth_error_nth'. lia.
    + intros Hge. apply nth_overflow. lia.
  - eexists. split; [exact Hshown |]. split; [reflexivity |].
    unfold len in *. rewrite length_firstn. lia.
Qed.

Lemma heightmap_samples_sound_witness :
  exists l shown,
    analyze_heightmap_locals
      {| Data := Some [B 1; B 4; B 0; B 192; B 255; B 0; B 0; B 64; B 0;
                       B 128; B 0; B 3; B 0; B 0; B 0; B 1; B 0; B 255];
         Version := Some 3 |} = Ok l /\
    sample_heights (l_result l) = Some shown /\
    shown = firstn 20 (l_sample_heights l) /\
    len shown = 20.
Proof.
  eexists.
  refine ((fun E => match proj2 (heightmap_samples_sound
                   {| Data := Some [B 1; B 4; B 0; B 192; B 255; B 0; B 0;
                                    B 64; B 0; B 128; B 0; B 3; B 0; B 0;
                                    B 0; B 1; B 0; B 255];
                      Version := Some 3 |}
                   [B 1; B 4; B 0; B 192; B 255; B 0; B 0; B 64; B 0;
                    B 128; B 0; B 3; B 0; B 0; B 0; B 1; B 0; B 255]
                   _ eq_refl E) with
                    | ex_intro _ shown P => ex_intro _ shown (conj E P)
                    end) _).
  vm_compute. reflexivity.
Defined.

(** * The two scripts side by side *)

(** X12: on a buffer that [read_region_header] accepts, the header read of
    [check_levels.py] returns the same version, blob count, segment size
    and, with [read_blob_index] run behind the header, the same index table
    and cursor. *)
Theorem check_levels_header_composes (buf : bytes)
    (version blob_count segment_size : Z) (f1 : file) :
  read_region_header (open_file buf)
    = Ok (version, blob_count, segment_size, f1) ->
  check_levels_header (open_file buf)
  = ('(indices, f2) <- read_blob_index f1 blob_count ;;
     Ok (MAGIC_STRING, version, blob_count, segment_size, indices, f2)).
Proof.
  rewrite read_region_header_eq.
  destruct (bytes_eqb (firstn 20 buf) MAGIC_STRING) eqn:E; cbn [negb];
    [| discriminate].
  apply bytes_eqb_eq in E.
  destruct (Z.leb_spec 32 (len buf)) as [Hlen | Hlen]; [| discriminate].
  intros [= <- <- <- <-].
  unfold check_levels_header, open_file.
  change (f_read 20 {| content := buf; cursor := 0 |})
    with (slice buf 0 (0 + 20),
          {| content := buf; cursor := 0 + len (slice buf 0 (0 + 20)) |}).
  cbv beta iota. rewrite slice_from_0. change (Z.to_nat 20) with 20%nat.
  rewrite E. change (0 + len MAGIC_STRING) with 20.
  rewrite read_BE_I by lia.
  destruct (Z.leb_spec (20 + 4) (len buf)); [| lia].
  rewrite read_BE_I by lia.
  destruct (Z.leb_spec (20 + 4 + 4) (len buf)); [| lia].
  rewrite read_BE_I by lia.
  destruct (Z.leb_spec (20 + 4 + 4 + 4) (len buf)); [| lia].
  reflexivity.
Qed.

Lemma check_levels_header_composes_witness :
  check_levels_header
    (open_file (MAGIC_STRING ++
                [B 0; B 0; B 0; B 1; B 0; B 0; B 0; B 1; B 0; B 0; B 16; B 0;
                 B 0; B 0; B 0; B 7]))
  = ('(indices, f2) <-
       read_blob_index
         {| content := MAGIC_STRING ++
              [B 0; B 0; B 0; B 1; B 0; B 0; B 0; B 1; B 0; B 0; B 16; B 0;
               B 0; B 0; B 0; B 7];
            cursor := 32 |} 1 ;;
     Ok (MAGIC_STRING, 1, 1, 4096, indices, f2)).
Proof.
  exact (check_levels_header_composes
           (MAGIC_STRING ++
            [B 0; B 0; B 0; B 1; B 0; B 0; B 0; B 1; B 0; B 0; B 16; B 0;
             B 0; B 0; B 0; B 7])
           1 1 4096 _ eq_refl).
Defined.

Lemma for_range_alike {A B : Type} (R : A -> B -> Prop)
    (body1 : Z -> A -> result A) (body2 : Z -> B -> result B) :
  (forall i a b, R a b -> alike R (body1 i a) (body2 i b)) ->
  forall n i a b,
    R a b -> alike R (for_range n i body1 a) (for_range n i body2 b).
Proof.
  intros Hbody. induction n as [| n IH]; intros i a b Hab.
  - exact Hab.
  - cbn [for_range]. specialize (Hbody i a b Hab). unfold alike in Hbody.
    destruct (body1 i a) as [a' | e1]; destruct (body2 i b) as [b' | e2];
      cbn [bind]; try contradiction.
    + apply IH. exact Hbody.
    + exact Hbody.
Qed.

Lemma entries_alike (fd : bytes) (ec p : Z) :
  alike (fun (a : list entry * Z) (b : list (Z * str * Z) * Z) =>
           fst b = map entry_tuple (fst a) /\ snd b = snd a)
    (read_entries fd ec p)
    (range_loop ec (fun _ st => check_levels_entry fd st) ([], p)).
Proof.
  unfold read_entries, range_loop. apply for_range_alike.
  - intros _ [es q] [ts q'] [Hts Hq]. cbn [fst snd] in Hts, Hq. subst ts q'.
    unfold read_entry, check_levels_entry, alike.
    destruct (index fd q) as [iid | e]; cbn [bind]; [| reflexivity].
    destruct (unpack_BE_H _) as [sl | e]; cbn [bind]; [| reflexivity].
    destruct (decode_utf8 _) as [nm | e]; cbn [bind]; [| reflexivity].
    destruct (unpack_BE_H _) as [cnt | e]; cbn [bind]; [| reflexivity].
    cbn [fst snd]. rewrite map_app. split; reflexivity.
  - split; reflexivity.
Qed.

Lemma levels_alike (ld : bytes) (n : Z) :
  alike (fun (a : Z * list sample) (b : list (Z * Z * Z * Z)) =>
           b = map level_tuple (snd a))
    (range_loop n (voxel_body (level_nibble ld)) (0, []))
    (range_loop n (check_levels_level ld) []).
Proof.
  unfold range_loop. apply for_range_alike.
  - intros i [c ps] lf Hlf. cbn [snd] in Hlf. subst lf.
    unfold voxel_body, check_levels_level, alike.
    rewrite check_levels_nibble_eq.
    destruct (level_nibble ld i) as [lv | e]; cbn [bind]; [| reflexivity].
    assert (len (map level_tuple ps) = len ps) as ->
      by (unfold len; rewrite length_map; reflexivity).
    destruct (negb (lv =? 0)); cbn [andb]; [| reflexivity].
    destruct (len ps <? 20); cbn [snd]; [| reflexivity].
    rewrite map_app. reflexivity.
  - reflexivity.
Qed.

(** X13: on a HALF_BYTE section the two scripts agree: whenever
    [analyze_fluid_section] of [compare_chunks.py] succeeds, the section
    code of [check_levels.py] succeeds too and finds the same palette
    entries, the same hasLevels flag and, as [levels_found], the
    coordinates and levels of the same samples. *)
Theorem check_levels_agrees (fluid_doc : doc) (r : fluid_result) (pos : Z)
    (es : list entry) (hl : bool) :
  analyze_fluid_section fluid_doc = Ok (r, pos) ->
  palette_type r = Some 1 ->
  entries r = Some es -> has_levels r = Some hl ->
  check_levels_section fluid_doc
  = Ok (Some (map entry_tuple es, hl,
              option_map (map level_tuple) (sample_levels r))).
Proof.
  destruct fluid_doc as [[data |] ver]; [| cbn; intros [= <- _]; discriminate].
  intros H Hpt Hes Hhl.
  apply fluid_run_inv in H as (pt & I0 & Hpt' & [Hempty | Hfull]).
  { destruct Hempty as (-> & _). congruence. }
  assert (pt = 1) as -> by congruence.
  destruct Hfull
    as (_ & ec & es' & p & p1 & hb & U & RE & _ & Hes' & V & Ih & Hhl' & L).
  assert (es' = es) as -> by congruence.
  assert (hl = negb (hb =? 0)) as -> by congruence.
  assert (p1 = p + 16384) as ->.
  { destruct V as [(_ & -> & _) | [(? & _) | (? & _)]]; congruence. }
  assert (check_levels_section {| Data := Some data; Version := ver |}
          = (pt <- index data 0 ;;
             if pt =? 0 then Ok None
             else
               ec <- unpack_BE_H (slice data 1 (1 + 2)) ;;
               '(entries, q) <-
                 range_loop ec (fun _ st => check_levels_entry data st)
                   ([], 1 + 2) ;;
               b <- index data (q + 16384) ;;
               if negb (b =? 0) then
                 levels_found <-
                   range_loop 32768
                     (check_levels_level
                        (slice data (q + 16384 + 1) (q + 16384 + 1 + 16384)))
                     [] ;;
                 Ok (Some (entries, negb (b =? 0), Some levels_found))
               else Ok (Some (entries, negb (b =? 0), None)))) as ->.
  { unfold check_levels_section. cbn [Data].
    destruct data as [| b0 data']; [discriminate I0 | reflexivity]. }
  rewrite I0. cbn [bind]. change (1 =? 0) with false. cbv iota.
  change (1 + 2) with 3. rewrite U. cbn [bind].
  pose proof (entries_alike data ec 3) as Hal. rewrite RE in Hal.
  destruct (range_loop ec (fun _ st => check_levels_entry data st) ([], 3))
    as [[ts q] | e]; unfold alike in Hal; [| contradiction].
  cbn [fst snd] in Hal. destruct Hal as [-> ->]. cbn [bind].
  rewrite Ih. cbn [bind].
  destruct L as [(Hhb & _ & c & ps & R & _ & ->) | (-> & _ & _ & ->)].
  - destruct (Z.eqb_spec hb 0) as [? | _]; [contradiction |]. cbn [negb].
    pose proof (levels_alike (slice data (p + 16384 + 1)
                               (p + 16384 + 1 + 16384)) 32768) as Hal.
    rewrite R in Hal.
    destruct (range_loop 32768
                (check_levels_level
                   (slice data (p + 16384 + 1) (p + 16384 + 1 + 16384))) [])
      as [lf | e]; unfold alike in Hal; [| contradiction].
    cbn [snd] in Hal. subst lf. reflexivity.
  - reflexivity.
Qed.

Lemma check_levels_agrees_witness :
  exists r,
    check_levels_section {| Data := Some water_section; Version := None |}
    = Ok (Some (map entry_tuple
                  [{| id := 0; name := [69; 109; 112; 116; 121]; count := 0 |};
                   {| id := 7; name := [87; 97; 116; 101; 114]; count := 1 |}],
                true,
                option_map (map level_tuple) (sample_levels r))).
Proof.
  destruct water_section_run as (r & tl & tl' & E & Hpt & _ & Hes & _ & Hsl).
  exists r.
  refine (check_levels_agrees _ r _ _ true E Hpt Hes _).
  apply fluid_run_inv in E as (pt & _ & Hpt' & [Hempty | Hfull]).
  - destruct Hempty as (_ & _ & _ & _ & _ & _ & _ & _ & Hnone). congruence.
  - destruct Hfull as (_ & ec & es' & p & p1 & hb & _ & _ & _ & _ & _ & _
                       & Hhl & L).
    rewrite Hhl. destruct L as [(Hhb & _) | (_ & _ & _ & Hnone)];
      [| congruence].
    destruct (Z.eqb_spec hb 0); [contradiction | reflexivity].
Defined.

(** * The region scan *)


Lemma occupied_slots_sound (blob_indices : list Z) :
  forall blob_idx slot,
    In slot (occupied_slots blob_idx blob_indices) ->
    blob_idx <= slot /\
    exists e, nth_error blob_indices (Z.to_nat (slot - blob_idx)) = Some e /\
              e <> 0.
Proof.
  induction blob_indices as [| e rest IH]; intros blob_idx slot;
    cbn [occupied_slots]; [intros [] |].
  assert (forall s, In s (occupied_slots (blob_idx + 1) rest) ->
            blob_idx <= s /\
            exists e', nth_error (e :: rest) (Z.to_nat (s - blob_idx))
                       = Some e' /\ e' <> 0) as Hrest.
  { intros s Hs. apply IH in Hs as (Hle & e' & Hn & He').
    split; [lia |]. exists e'. split; [| exact He'].
    replace (Z.to_nat (s - blob_idx))
      with (S (Z.to_nat (s - (blob_idx + 1)))) by lia.
    exact Hn. }
  destruct (Z.eqb_spec e 0) as [-> | He]; [apply Hrest |].
  intros [<- | Hs]; [| apply Hrest; exact Hs].
  split; [lia |]. exists e. rewrite Z.sub_diag. split; [reflexivity | exact He].
Qed.






(** * Missing keys, empty buffers, and how the parts fit *)

(** X15: without a ["Data"] key no analyzer raises: the fluid and the
    heightmap analyzers report [no_data] and the block analyzer returns the
    version alone; on an empty ["Data"] the three of them raise
    ([IndexError], or [struct.error] for a block section of Version 6 or
    more), while [check_levels.py] skips the section in both cases. *)
Theorem missing_or_empty_data (ver : option Z) :
  (exists r,
     analyze_fluid_section {| Data := None; Version := ver |} = Ok (r, 0) /\
     status_no_data r = true /\ palette_type r = None /\ entries r = None) /\
  (exists r,
     analyze_heightmap {| Data := None; Version := ver |} = Ok r /\
     h_status_no_data r = true /\ h_version r = None /\
     sample_heights r = None) /\
  (exists r,
     analyze_block_section {| Data := None; Version := ver |} = Ok (r, 0) /\
     b_version r = ver /\ b_palette_type r = None /\ b_entries r = None) /\
  analyze_fluid_section {| Data := Some []; Version := ver |}
    = Raise IndexError /\
  analyze_heightmap {| Data := Some []; Version := ver |}
    = Raise IndexError /\
  analyze_block_section {| Data := Some []; Version := ver |}
    = Raise (if 6 <=? Version_get {| Data := Some []; Version := ver |}
             then StructError else IndexError) /\
  check_levels_section {| Data := None; Version := ver |} = Ok None /\
  check_levels_section {| Data := Some []; Version := ver |} = Ok None.
Proof.
  split; [eexists; split; [reflexivity | repeat split] |].
  split; [eexists; split; [reflexivity | repeat split] |].
  split; [eexists; split; [reflexivity | repeat split] |].
  split; [reflexivity |]. split; [reflexivity |].
  split; [| split; reflexivity].
  unfold analyze_block_section. cbn [Data]. cbv zeta.
  destruct (6 <=? _); reflexivity.
Qed.

(** X16: [analyze_heightmap] succeeds exactly when the buffer holds the
    header (the flag, the palette count, the palette and the bitfield
    length); the bitfield itself may be cut short or missing, and the
    cursor it ends with, [7 + 2*paletteCount + bitfieldLength], may then lie
    beyond the buffer. *)
Theorem heightmap_succeeds_iff (block_chunk_doc : doc) (data : bytes) :
  Data block_chunk_doc = Some data ->
  ((exists r, analyze_heightmap block_chunk_doc = Ok r)
   <-> 7 + 2 * le_int (slice data 1 3) <= len data) /\
  (forall l,
     analyze_heightmap_locals block_chunk_doc = Ok l ->
     l_pos l = 7 + 2 * l_palette_count l + l_bitfield_length l /\
     (len data < l_pos l <->
        len (l_bitfield_data l) < l_bitfield_length l)).
Proof.
  intros HD. split; [split |].
  - intros [r Hr]. unfold analyze_heightmap in Hr.
    destruct (analyze_heightmap_locals block_chunk_doc) as [l | e] eqn:E;
      [| discriminate].
    destruct (heightmap_run block_chunk_doc data l HD E) as (_ & _ & H & _).
    lia.
  - intros Hfit.
    destruct (heightmap_total block_chunk_doc data HD Hfit) as [l E].
    exists (l_result l). unfold analyze_heightmap. rewrite E. reflexivity.
  - intros l E.
    destruct (heightmap_run block_chunk_doc data l HD E)
      as (Hpc & _ & Hfit & Hbl & Hbf & Hpos & _).
    pose proof (le_int_nonneg (slice data 1 3)) as Hnn.
    rewrite <- Hpc in Hfit, Hbl, Hbf, Hpos, Hnn.
    pose proof (le_int_nonneg
                  (slice data (3 + 2 * l_palette_count l)
                     (3 + 2 * l_palette_count l + 4))) as Hblnn.
    rewrite <- Hbl in Hbf, Hpos, Hblnn.
    split; [lia |]. rewrite Hbf at 1. rewrite len_slice by lia. lia.
Qed.

Lemma heightmap_succeeds_iff_witness :
  (exists r,
     analyze_heightmap
       {| Data := Some [B 0; B 1; B 0; B 5; B 0; B 9; B 0; B 0; B 0];
          Version := None |} = Ok r)
  <-> 7 + 2 * le_int (slice [B 0; B 1; B 0; B 5; B 0; B 9; B 0; B 0; B 0] 1 3)
      <= len [B 0; B 1; B 0; B 5; B 0; B 9; B 0; B 0; B 0].
Proof.
  exact (proj1 (heightmap_succeeds_iff
                  {| Data := Some [B 0; B 1; B 0; B 5; B 0; B 9; B 0; B 0; B 0];
                     Version := None |}
                  [B 0; B 1; B 0; B 5; B 0; B 9; B 0; B 0; B 0] eq_refl)).
Defined.

(** X17: the header, the index table and the segments fit together: after
    [read_region_header] and [read_blob_index] on a fresh file the cursor
    stands at byte [32 + 4*blob_count], which is where [read_chunk] looks
    for segment 1; the table has [blob_count] entries and lies inside the
    file. *)
Theorem header_then_index (buf : bytes) (version blob_count segment_size : Z)
    (f1 f2 : file) (blob_indices : list Z) :
  read_region_header (open_file buf)
    = Ok (version, blob_count, segment_size, f1) ->
  read_blob_index f1 blob_count = Ok (blob_indices, f2) ->
  len blob_indices = blob_count /\
  0 <= blob_count < 4294967296 /\
  content f2 = buf /\
  cursor f2 = HEADER_LENGTH + blob_count * 4 /\
  locate 1 blob_count segment_size = Some (cursor f2) /\
  cursor f2 <= len buf.
Proof.
  rewrite read_region_header_eq.
  destruct (negb _); [discriminate |].
  destruct (Z.leb_spec 32 (len buf)) as [Hlen | Hlen]; [| discriminate].
  intros Hh Hi.
  assert (blob_count = be_int (slice buf 24 28)) as Hbc by congruence.
  assert (f1 = {| content := buf; cursor := 32 |}) as -> by congruence.
  assert (0 <= blob_count < 4294967296) as Hrange.
  { rewrite Hbc. apply be_int4_range. rewrite len_slice by lia. lia. }
  clear Hh Hbc.
  unfold read_blob_index, range_loop in Hi.
  rewrite blob_index_loop in Hi by lia. cbn [app] in Hi.
  rewrite Z2Nat.id in Hi by lia.
  destruct ((Z.to_nat blob_count =? 0)%nat || (32 + 4 * blob_count <=? len buf))
    eqn:Fit; [| discriminate].
  assert (blob_indices = index_table buf 32 (Z.to_nat blob_count)) as ->
    by congruence.
  assert (f2 = {| content := buf; cursor := 32 + 4 * blob_count |}) as ->
    by congruence.
  clear Hi. unfold HEADER_LENGTH.
  change (content {| content := buf; cursor := 32 + 4 * blob_count |})
    with buf.
  change (cursor {| content := buf; cursor := 32 + 4 * blob_count |})
    with (32 + 4 * blob_count).
  split; [unfold len; rewrite length_index_table; lia |].
  split; [exact Hrange |]. split; [reflexivity |]. split; [lia |].
  split.
  - unfold locate, HEADER_LENGTH.
    destruct (Z.eqb_spec 1 0) as [? | _]; [lia |]. f_equal. lia.
  - apply orb_true_iff in Fit as [Fit | Fit].
    + apply Nat.eqb_eq in Fit. lia.
    + apply Z.leb_le in Fit. exact Fit.
Qed.

Lemma header_then_index_witness :
  len [7] = 1 /\
  0 <= 1 < 4294967296 /\
  content {| content := MAGIC_STRING ++
               [B 0; B 0; B 0; B 1; B 0; B 0; B 0; B 1; B 0; B 0; B 16; B 0;
                B 0; B 0; B 0; B 7];
             cursor := 36 |}
  = MAGIC_STRING ++
    [B 0; B 0; B 0; B 1; B 0; B 0; B 0; B 1; B 0; B 0; B 16; B 0;
     B 0; B 0; B 0; B 7] /\
  36 = HEADER_LENGTH + 1 * 4 /\
  locate 1 1 4096 = Some 36 /\
  36 <= len (MAGIC_STRING ++
             [B 0; B 0; B 0; B 1; B 0; B 0; B 0; B 1; B 0; B 0; B 16; B 0;
              B 0; B 0; B 0; B 7]).
Proof.
  exact (header_then_index
           (MAGIC_STRING ++
            [B 0; B 0; B 0; B 1; B 0; B 0; B 0; B 1; B 0; B 0; B 16; B 0;
             B 0; B 0; B 0; B 7])
           1 1 4096 _ _ [7] eq_refl eq_refl).
Defined.
